(** * listmonk-messenger: the SES (e-mail) and Pinpoint (SMS) adapters

    A shallow embedding of [messenger/ses.go] and of the Pinpoint adapter
    of the same package, with the Go heap made explicit where the code
    shares or copies storage ([[]byte] slices, [textproto.MIMEHeader]
    maps), and the calls into the AWS SDK, smtppool, encoding/json and
    the logger recorded in a trace of events. *)

From Stdlib Require Import String Ascii List ZArith Lia.
From stdpp Require Import base option list gmap strings.

Open Scope string_scope.
Open Scope list_scope.
Open Scope nat_scope.

(** ** Go values *)

Abbreviation byte := Byte.byte.
Abbreviation loc := positive.

(** Go's [error] interface.  [errorString] is what [fmt.Errorf] and
    [errors.New] build; [externalError] stands for the error values of the
    libraries the package calls (SDK, smtppool, encoding/json). *)
Inductive error : Type :=
| errorString (s : string)
| externalError (origin : string) (detail : string).

Definition fmt_Errorf (s : string) : error := errorString s.

(** A Go call either returns or panics. *)
Inductive outcome (A : Type) : Type :=
| Returned (a : A)
| Panicked (why : string).
Arguments Returned {A} a.
Arguments Panicked {A} why.

(** [interface{}] values as JSON decoding produces them; the type
    assertion [v.(string)] only looks at the dynamic type. *)
#[warnings="-register-all"]
Inductive any : Type :=
| anyNil
| anyBool (b : bool)
| anyFloat64 (n : Z)
| anyString (s : string)
| anySlice (l : list any)
| anyMap (m : list (string * any)).

(** [v, ok := x.(string)] where [x] is the result of indexing a
    [map[string]interface{}]: a missing key yields the nil interface. *)
Definition assert_string (x : option any) : string * bool :=
  match x with
  | Some (anyString s) => (s, true)
  | _ => ("", false)
  end.

(** A [[]byte] slice: nil, or a window [off, off+len) with capacity [cap]
    into a backing array that lives in the heap. *)
Inductive byteslice : Type :=
| NilSlice
| Slice (arr : loc) (off len cap : nat).

Definition slice_len (s : byteslice) : nat :=
  match s with
  | NilSlice => 0
  | Slice _ _ n _ => n
  end.

Definition slice_arr (s : byteslice) : option loc :=
  match s with
  | NilSlice => None
  | Slice a _ _ _ => Some a
  end.

(** [textproto.MIMEHeader] is [map[string][]string]; a value of that type
    is a reference to a map object (or nil). *)
Abbreviation MIMEHeader := (gmap string (list string)).
Abbreviation headerref := (option loc).

(** ** External packages: data *)

Module models.
Record Subscriber : Type := mkSubscriber {
  Email : string;
  Attribs : gmap string any
}.
Record Campaign : Type := mkCampaign {
  FromEmail : string
}.
End models.

Module smtppool.
Record Attachment : Type := mkAttachment {
  Filename : string;
  Header : headerref;
  Content : byteslice
}.
Record Email : Type := mkEmail {
  From : string;
  To : list string;
  Subject : string;
  Sender : string;
  Headers : headerref;
  Attachments : option (list Attachment);
  Text : byteslice;
  HTML : byteslice
}.
End smtppool.

Module aws.
Record Credentials : Type := NewStaticCredentials {
  id : string; secret : string; token : string
}.
Record Config : Type := mkConfig {
  MaxRetries : option nat;
  Creds : option Credentials;
  Region : option string
}.
Record Session : Type := mkSession { cfg : Config }.
End aws.

Module ses.
Record RawMessage : Type := mkRawMessage { Data : list byte }.
Record SendRawEmailInput : Type := mkInput {
  Source : option string;
  Destinations : list (option string);
  Raw : option RawMessage
}.
Record SendRawEmailOutput : Type := mkOutput {
  MessageId : option string
}.
Record SES : Type := New { sess : aws.Session }.
End ses.

Module pinpoint.
Record AddressConfiguration : Type := mkAddress {
  ChannelType : option string
}.
Record SMSMessage : Type := mkSMS {
  Body : option string;
  MessageType : option string;
  SenderId : option string
}.
Record DirectMessageConfiguration : Type := mkDirect {
  SMS : option SMSMessage
}.
Record MessageRequest : Type := mkRequest {
  Addresses : gmap string AddressConfiguration;
  MessageConfiguration : option DirectMessageConfiguration
}.
Record SendMessagesInput : Type := mkInput {
  ApplicationId : option string;
  Request : option MessageRequest
}.
Record MessageResult : Type := mkResult {
  DeliveryStatus : string;
  ResultMessageId : option string
}.
Record MessageResponse : Type := mkResponse {
  Result : gmap string (option MessageResult)
}.
Record SendMessagesOutput : Type := mkOutput {
  Response : option MessageResponse
}.
Record Pinpoint : Type := New { sess : aws.Session }.
End pinpoint.

(** ** The package's own data *)

(** Modelled from the spec: the declarations of [Attachment] and [Message]
    (messenger.go) are not among the sources; the fields are the ones the
    spec lists and the two adapters read, with the types the assignments
    in [Push] force ([Header] goes into [smtppool.Attachment.Header],
    [Body] into [smtppool.Email.Text], [Content] is an argument of
    [copy]). *)
Module Attachment.
Record t : Type := mk {
  Name : string;
  Header : headerref;
  Content : byteslice
}.
End Attachment.

(** Modelled from the spec: the declaration of [Message] (see above); the
    fields the two adapters read, and the ones the spec lists. *)
Module Message.
Record t : Type := mk {
  From : string;
  To : list string;
  Subject : string;
  ContentType : string;
  Body : byteslice;
  AltBody : byteslice;
  Headers : headerref;
  Attachments : option (list Attachment.t);
  Subscriber : models.Subscriber;
  Campaign : option models.Campaign
}.
End Message.

Definition ContentTypeHTML : string := "html".
Definition ContentTypePlain : string := "plain".

Definition channelType : string := "SMS".

Module sesCfg.
Record t : Type := mk {
  AccessKey : string;
  SecretKey : string;
  Region : string;
  Log : bool
}.
Definition zero : t := mk "" "" "" false.
End sesCfg.

Module pinpointCfg.
Record t : Type := mk {
  AppID : string;
  AccessKey : string;
  SecretKey : string;
  Region : string;
  MessageType : string;
  SenderID : string;
  Log : bool
}.
Definition zero : t := mk "" "" "" "" "" "" false.
End pinpointCfg.

(** A pointer to [onelog.Logger]: a handle; what is written goes to the trace. *)
Record Logger : Type := mkLogger { sink : nat }.

Module sesMessenger.
Record t : Type := mk {
  cfg : sesCfg.t;
  client : ses.SES;
  logger : Logger
}.
End sesMessenger.

Module pinpointMessenger.
Record t : Type := mk {
  cfg : pinpointCfg.t;
  client : pinpoint.Pinpoint;
  logger : Logger
}.
End pinpointMessenger.

(** ** The world: heap and trace *)

Inductive Event : Type :=
| EvNewSession (c : aws.Config)
| EvGetCallerIdentity (s : aws.Session)
| EvSendRawEmail (c : ses.SES) (i : ses.SendRawEmailInput)
| EvSendMessages (c : pinpoint.Pinpoint) (i : pinpoint.SendMessagesInput)
| EvLog (l : Logger) (msg : string) (fields : list (string * string)).

Record World : Type := mkWorld {
  mem : gmap loc (list byte);
  hdrs : gmap loc MIMEHeader;
  trace : list Event
}.

Definition emit (e : Event) (w : World) : World :=
  mkWorld (mem w) (hdrs w) (trace w ++ [e]).

Definition set_mem (m : gmap loc (list byte)) (w : World) : World :=
  mkWorld m (hdrs w) (trace w).

(** The bytes a slice denotes in a heap. *)
Definition read_slice (m : gmap loc (list byte)) (s : byteslice) : list byte :=
  match s with
  | NilSlice => []
  | Slice a off n _ =>
      match m !! a with
      | Some bs => take n (drop off bs)
      | None => []
      end
  end.

(** A slice is well formed in a heap when its window and capacity lie
    inside an allocated backing array. *)
Definition slice_ok (m : gmap loc (list byte)) (s : byteslice) : bool :=
  match s with
  | NilSlice => true
  | Slice a off n c =>
      match m !! a with
      | Some bs => bool_decide (n ≤ c ∧ off + c ≤ length bs)
      | None => false
      end
  end.

(** [make([]byte, n)]: a fresh zeroed backing array. *)
Definition make_bytes (n : nat) (w : World) : byteslice * World :=
  let a := fresh (dom (mem w)) in
  (Slice a 0 n n, set_mem (<[a := replicate n Byte.x00]> (mem w)) w).

(** Overwrite [bs] from position [off] on with [data]. *)
Definition write_at (off : nat) (data bs : list byte) : list byte :=
  take off bs ++ data ++ drop (off + length data) bs.

(** [copy(dst, src)]: copies [min(len(dst), len(src))] bytes and returns
    that number. *)
Definition copy (dst src : byteslice) (w : World) : nat * World :=
  let n := Nat.min (slice_len dst) (slice_len src) in
  let data := take n (read_slice (mem w) src) in
  match dst with
  | NilSlice => (n, w)
  | Slice a off _ _ =>
      match mem w !! a with
      | Some bs => (n, set_mem (<[a := write_at off data bs]> (mem w)) w)
      | None => (n, w)
      end
  end.

(** [s[i] = b] on a byte slice (out of range panics). *)
Definition store_byte (s : byteslice) (i : nat) (b : byte) (w : World)
  : outcome World :=
  match s with
  | NilSlice => Panicked "index out of range"
  | Slice a off n _ =>
      if bool_decide (i < n) then
        match mem w !! a with
        | Some bs => Returned (set_mem (<[a := <[off + i := b]> bs]> (mem w)) w)
        | None => Panicked "invalid memory address"
        end
      else Panicked "index out of range"
  end.

(** [h[k] = v] on a header map (assignment to an entry of a nil map
    panics). *)
Definition header_set (h : headerref) (k : string) (v : list string)
    (w : World) : outcome World :=
  match h with
  | None => Panicked "assignment to entry in nil map"
  | Some a =>
      match hdrs w !! a with
      | Some m => Returned (mkWorld (mem w) (<[a := <[k := v]> m]> (hdrs w)) (trace w))
      | None => Panicked "invalid memory address"
      end
  end.

(** [h[k]] on a header map; a nil map reads as empty. *)
Definition header_get (w : World) (h : headerref) (k : string)
  : option (list string) :=
  match h with
  | None => None
  | Some a => match hdrs w !! a with Some m => m !! k | None => None end
  end.

(** ** External packages: operations

    The libraries the package calls are collaborators with a fixed
    request/response contract.  Each is a function of its arguments and
    of the world it is called in; the adapters record every call that
    leaves the process in the trace. *)
Class Collaborators : Type := {
  (** smtppool: the method [Bytes] of an [Email] *)
  email_Bytes : smtppool.Email → World → error + list byte;
  (** ses: the method [SendRawEmail] of the client *)
  ses_SendRawEmail :
    ses.SES → ses.SendRawEmailInput → World → error + ses.SendRawEmailOutput;
  (** pinpoint: the method [SendMessages] of the client *)
  pinpoint_SendMessages :
    pinpoint.Pinpoint → pinpoint.SendMessagesInput → World →
    error + pinpoint.SendMessagesOutput;
  (** sts: [GetCallerIdentity], of which only the error is used *)
  sts_GetCallerIdentity : aws.Session → World → option error;
  (** session: [NewSession] *)
  session_NewSession : aws.Config → World → error + aws.Session;
  (** encoding/json: [Unmarshal(cfg, &c)], from the value [c] holds *)
  json_Unmarshal_sesCfg : list byte → sesCfg.t → error + sesCfg.t;
  json_Unmarshal_pinpointCfg :
    list byte → pinpointCfg.t → error + pinpointCfg.t;
  (** fmt: [Sprintf("%#+v", x)] *)
  fmt_Sprintf_email : ses.SendRawEmailOutput → string;
  fmt_Sprintf_sms : option pinpoint.MessageResult → string
}.

(** [logger.InfoWith(msg).String(k1, v1).String(k2, v2).Write()] *)
Definition log_info (l : Logger) (msg : string)
    (fields : list (string * string)) (w : World) : World :=
  emit (EvLog l msg fields) w.

Section Adapters.
Context `{C : Collaborators}.

(** *** ses.go *)

Definition sesMessenger_Name (s : sesMessenger.t) : string := "ses".

(** Lines 46-52: the body of the loop over [msg.Attachments]. *)
Definition convert_attachment (f : Attachment.t) (w : World)
  : smtppool.Attachment * World :=
  let '(buf, w1) := make_bytes (slice_len (Attachment.Content f)) w in
  let a := smtppool.mkAttachment (Attachment.Name f) (Attachment.Header f) buf in
  let '(_, w2) := copy (smtppool.Content a) (Attachment.Content f) w1 in
  (a, w2).

(** Lines 45-53: [for _, f := range msg.Attachments], appending to
    [files]. *)
Fixpoint convert_loop (atts : list Attachment.t)
    (files : list smtppool.Attachment) (w : World)
  : list smtppool.Attachment * World :=
  match atts with
  | [] => (files, w)
  | f :: rest =>
      let '(a, w1) := convert_attachment f w in
      convert_loop rest (files ++ [a]) w1
  end.

(** Lines 42-54: [files] stays nil when [msg.Attachments] is nil. *)
Definition convert_attachments (atts : option (list Attachment.t))
    (w : World) : option (list smtppool.Attachment) * World :=
  match atts with
  | None => (None, w)
  | Some l =>
      let '(files, w1) := convert_loop l [] w in
      (Some files, w1)
  end.

(** Lines 56-59. *)
Definition resolve_from (msg : Message.t) : string :=
  match Message.Campaign msg with
  | Some c => models.FromEmail c
  | None => Message.From msg
  end.

(** Lines 41-75: the envelope handed to [email.Bytes()]. *)
Definition build_email (msg : Message.t) (w : World)
  : smtppool.Email * World :=
  let '(files, w1) := convert_attachments (Message.Attachments msg) w in
  let fromEmail := resolve_from msg in
  let email :=
    smtppool.mkEmail fromEmail
      [models.Email (Message.Subscriber msg)]
      (Message.Subject msg)
      (Message.From msg)
      (Message.Headers msg)
      files
      NilSlice NilSlice in
  let email :=
    if bool_decide (Message.ContentType msg = ContentTypePlain) then
      smtppool.mkEmail (smtppool.From email) (smtppool.To email)
        (smtppool.Subject email) (smtppool.Sender email)
        (smtppool.Headers email) (smtppool.Attachments email)
        (Message.Body msg) (smtppool.HTML email)
    else
      smtppool.mkEmail (smtppool.From email) (smtppool.To email)
        (smtppool.Subject email) (smtppool.Sender email)
        (smtppool.Headers email) (smtppool.Attachments email)
        (smtppool.Text email) (Message.Body msg) in
  (email, w1).

(** Lines 82-88. *)
Definition raw_email_input (email : smtppool.Email) (msg : Message.t)
    (emailB : list byte) : ses.SendRawEmailInput :=
  ses.mkInput (Some (smtppool.From email))
    [Some (models.Email (Message.Subscriber msg))]
    (Some (ses.mkRawMessage emailB)).

Definition sesMessenger_Push (s : sesMessenger.t) (msg : Message.t)
    (w : World) : outcome (string * option error) * World :=
  let '(email, w1) := build_email msg w in
  match email_Bytes email w1 with
  | inl err => (Returned ("", Some err), w1)
  | inr emailB =>
      let input := raw_email_input email msg emailB in
      let w2 := emit (EvSendRawEmail (sesMessenger.client s) input) w1 in
      match ses_SendRawEmail (sesMessenger.client s) input w1 with
      | inl err => (Returned ("", Some err), w2)
      | inr out =>
          let w3 :=
            if sesCfg.Log (sesMessenger.cfg s) then
              log_info (sesMessenger.logger s) "successfully sent email"
                [("email", models.Email (Message.Subscriber msg));
                 ("results", fmt_Sprintf_email out)] w2
            else w2 in
          match ses.MessageId out with
          | Some id => (Returned (id, None), w3)
          | None => (Panicked "nil pointer dereference", w3)
          end
      end
  end.

Definition sesMessenger_Flush (s : sesMessenger.t) (w : World)
  : option error * World := (None, w).

Definition sesMessenger_Close (s : sesMessenger.t) (w : World)
  : option error * World := (None, w).

Definition checkCredentials (sess : aws.Session) (w : World)
  : option error * World :=
  (sts_GetCallerIdentity sess w, emit (EvGetCallerIdentity sess) w).

(** Lines 126-134 of ses.go, 98-106 of the Pinpoint file. *)
Definition aws_config (accessKey secretKey region : string) : aws.Config :=
  let creds :=
    if bool_decide (accessKey ≠ "") && bool_decide (secretKey ≠ "")
    then Some (aws.NewStaticCredentials accessKey secretKey "")
    else None in
  let reg := if bool_decide (region ≠ "") then Some region else None in
  aws.mkConfig (Some 3) creds reg.

(** *** the Pinpoint adapter *)

Definition pinpointMessenger_Name (p : pinpointMessenger.t) : string :=
  "pinpoint".

(** Lines 47-63. *)
Definition sms_payload (p : pinpointMessenger.t) (phone body : string)
  : pinpoint.SendMessagesInput :=
  pinpoint.mkInput
    (Some (pinpointCfg.AppID (pinpointMessenger.cfg p)))
    (Some (pinpoint.mkRequest
       {[ phone := pinpoint.mkAddress (Some channelType) ]}
       (Some (pinpoint.mkDirect (Some (pinpoint.mkSMS
          (Some body)
          (Some (pinpointCfg.MessageType (pinpointMessenger.cfg p)))
          (Some (pinpointCfg.SenderID (pinpointMessenger.cfg p))))))))).

(** Lines 71-73; Go leaves the order of a [range] over a map open, the
    order of [map_to_list] stands for it. *)
Definition log_results (l : Logger)
    (results : gmap string (option pinpoint.MessageResult)) (w : World)
  : World :=
  foldl (λ w' '(phone, result),
           log_info l "successfully sent sms"
             [("phone", phone); ("result", fmt_Sprintf_sms result)] w')
        w (map_to_list results).

Definition pinpointMessenger_Push (p : pinpointMessenger.t)
    (msg : Message.t) (w : World)
  : outcome (string * option error) * World :=
  let '(phone, ok) :=
    assert_string (models.Attribs (Message.Subscriber msg) !! "phone") in
  if negb ok then
    (Returned ("", Some (fmt_Errorf "could not find subscriber phone")), w)
  else
    let body := string_of_list_byte (read_slice (mem w) (Message.Body msg)) in
    let payload := sms_payload p phone body in
    let w1 := emit (EvSendMessages (pinpointMessenger.client p) payload) w in
    match pinpoint_SendMessages (pinpointMessenger.client p) payload w with
    | inl err => (Returned ("", Some err), w1)
    | inr out =>
        if pinpointCfg.Log (pinpointMessenger.cfg p) then
          match pinpoint.Response out with
          | Some r =>
              (Returned ("", None),
               log_results (pinpointMessenger.logger p) (pinpoint.Result r) w1)
          | None => (Panicked "nil pointer dereference", w1)
          end
        else (Returned ("", None), w1)
    end.

Definition pinpointMessenger_Flush (p : pinpointMessenger.t) (w : World)
  : option error * World := (None, w).

Definition pinpointMessenger_Close (p : pinpointMessenger.t) (w : World)
  : option error * World := (None, w).

(** *** The [Messenger] interface

    A value of the interface type is nil or one of the two adapters. *)
Inductive Messenger : Type :=
| OfSES (s : sesMessenger.t)
| OfPinpoint (p : pinpointMessenger.t).

Definition Name (m : Messenger) : string :=
  match m with
  | OfSES s => sesMessenger_Name s
  | OfPinpoint p => pinpointMessenger_Name p
  end.

Definition Push (m : Messenger) (msg : Message.t) (w : World)
  : outcome (string * option error) * World :=
  match m with
  | OfSES s => sesMessenger_Push s msg w
  | OfPinpoint p => pinpointMessenger_Push p msg w
  end.

Definition Flush (m : Messenger) (w : World) : option error * World :=
  match m with
  | OfSES s => sesMessenger_Flush s w
  | OfPinpoint p => pinpointMessenger_Flush p w
  end.

Definition Close (m : Messenger) (w : World) : option error * World :=
  match m with
  | OfSES s => sesMessenger_Close s w
  | OfPinpoint p => pinpointMessenger_Close p w
  end.

(** *** Constructors *)

(** [session.Must(session.NewSession(config))] panics on an error. *)
Definition must_new_session (config : aws.Config) (w : World)
  : outcome aws.Session * World :=
  let w1 := emit (EvNewSession config) w in
  match session_NewSession config w with
  | inl err => (Panicked "session.Must", w1)
  | inr sess => (Returned sess, w1)
  end.

Definition NewAWSSES (cfg : list byte) (l : Logger) (w : World)
  : outcome (option Messenger * option error) * World :=
  match json_Unmarshal_sesCfg cfg sesCfg.zero with
  | inl err => (Returned (None, Some err), w)
  | inr c =>
      let config :=
        aws_config (sesCfg.AccessKey c) (sesCfg.SecretKey c) (sesCfg.Region c) in
      match must_new_session config w with
      | (Panicked why, w1) => (Panicked why, w1)
      | (Returned sess, w1) =>
          match checkCredentials sess w1 with
          | (Some err, w2) => (Returned (None, Some err), w2)
          | (None, w2) =>
              (Returned
                 (Some (OfSES (sesMessenger.mk c (ses.New sess) l)), None),
               w2)
          end
      end
  end.

Definition NewPinpoint (cfg : list byte) (l : Logger) (w : World)
  : outcome (option Messenger * option error) * World :=
  match json_Unmarshal_pinpointCfg cfg pinpointCfg.zero with
  | inl err => (Returned (None, Some err), w)
  | inr c =>
      if bool_decide (pinpointCfg.AppID c = "") then
        (Returned (None, Some (fmt_Errorf "invalid app_id")), w)
      else
        let config :=
          aws_config (pinpointCfg.AccessKey c) (pinpointCfg.SecretKey c)
            (pinpointCfg.Region c) in
        match must_new_session config w with
        | (Panicked why, w1) => (Panicked why, w1)
        | (Returned sess, w1) =>
            match checkCredentials sess w1 with
            | (Some err, w2) => (Returned (None, Some err), w2)
            | (None, w2) =>
                (Returned
                   (Some (OfPinpoint
                            (pinpointMessenger.mk c (pinpoint.New sess) l)),
                    None),
                 w2)
            end
        end
  end.

(** *** Sequences of calls to the side-effect-free part of the contract *)

Inductive call : Type := CallName | CallFlush | CallClose.

Inductive reply : Type :=
| ReplyName (s : string)
| ReplyError (e : option error).

Definition run_call (m : Messenger) (c : call) (w : World) : reply * World :=
  match c with
  | CallName => (ReplyName (Name m), w)
  | CallFlush => let '(e, w1) := Flush m w in (ReplyError e, w1)
  | CallClose => let '(e, w1) := Close m w in (ReplyError e, w1)
  end.

Fixpoint run_calls (m : Messenger) (cs : list call) (w : World)
  : list reply * World :=
  match cs with
  | [] => ([], w)
  | c :: rest =>
      let '(r, w1) := run_call m c w in
      let '(rs, w2) := run_calls m rest w1 in
      (r :: rs, w2)
  end.

End Adapters.

(** ** Concrete collaborators and inputs

    Scripted collaborators answer every call with a fixed reply; they are
    what the closed examples below run the adapters against. *)
Definition scripted
    (mime : error + list byte)
    (email_reply : error + ses.SendRawEmailOutput)
    (sms_reply : error + pinpoint.SendMessagesOutput)
    (parsed : error + pinpointCfg.t) : Collaborators :=
  {| email_Bytes := λ _ _, mime;
     ses_SendRawEmail := λ _ _ _, email_reply;
     pinpoint_SendMessages := λ _ _ _, sms_reply;
     sts_GetCallerIdentity := λ _ _, None;
     session_NewSession := λ c _, inr (aws.mkSession c);
     json_Unmarshal_sesCfg := λ _ c, inr c;
     json_Unmarshal_pinpointCfg := λ _ _, parsed;
     fmt_Sprintf_email := λ _, "&ses.SendRawEmailOutput{...}";
     fmt_Sprintf_sms := λ _, "&pinpoint.MessageResult{...}" |}.

Definition bytes_of (s : string) : list byte := list_byte_of_string s.

(** A heap with three caller-owned buffers and one header map. *)
Definition world0 : World :=
  mkWorld
    (<[1%positive := bytes_of "<p>hi</p>"]>
       (<[2%positive := bytes_of "hi"]>
          (<[3%positive := bytes_of "%PDF-1.7"]> ∅)))
    (<[1%positive := <["Content-Type" := ["application/pdf"]]> ∅]> ∅)
    [].

Definition subscriber0 : models.Subscriber :=
  models.mkSubscriber "a@b.com" (<["phone" := anyString "+15550001111"]> ∅).

Definition subscriber_nophone : models.Subscriber :=
  models.mkSubscriber "a@b.com" (<["phone" := anyFloat64 15550001111]> ∅).

Definition msg_html : Message.t :=
  Message.mk "x@y.com" [] "hello" "html" (Slice 1 0 9 9) NilSlice None None
    subscriber0 None.

Definition msg_plain : Message.t :=
  Message.mk "x@y.com" [] "hello" "plain" (Slice 2 0 2 2) NilSlice None None
    subscriber0 (Some (models.mkCampaign "news@y.com")).

Definition attachment0 : Attachment.t :=
  Attachment.mk "a.pdf" (Some 1%positive) (Slice 3 0 8 8).

Definition msg_attach : Message.t :=
  Message.mk "x@y.com" [] "hello" "html" (Slice 1 0 9 9) NilSlice None
    (Some [attachment0]) subscriber0 None.

Definition msg_nophone : Message.t :=
  Message.mk "x@y.com" [] "" "plain" (Slice 2 0 2 2) NilSlice None None
    subscriber_nophone None.

Definition session0 : aws.Session :=
  aws.mkSession (aws.mkConfig (Some 3) None None).

Definition ses0 : sesMessenger.t :=
  sesMessenger.mk (sesCfg.mk "" "" "" true) (ses.New session0) (mkLogger 0).

Definition pinpoint0 : pinpointMessenger.t :=
  pinpointMessenger.mk
    (pinpointCfg.mk "A1" "" "" "" "TRANSACTIONAL" "S" true)
    (pinpoint.New session0) (mkLogger 0).

Definition mime_error : error := externalError "smtppool" "malformed header".

Definition sms_results : pinpoint.SendMessagesOutput :=
  pinpoint.mkOutput (Some (pinpoint.mkResponse
    (<["+15550001111" :=
         Some (pinpoint.mkResult "SUCCESSFUL" (Some "r-42"))]> ∅))).

(** Lowercase ASCII letters only. *)
Definition is_lower (c : ascii) : bool :=
  let n := nat_of_ascii c in (97 <=? n) && (n <=? 122).

Fixpoint all_lower (s : string) : bool :=
  match s with
  | EmptyString => true
  | String c rest => is_lower c && all_lower rest
  end.

(** Deep copy of attachments, as the specification words it: the record
    built for the transport and the caller's attachment have no header
    map and no backing array in common, and the record holds the caller's
    bytes. *)
Definition shares_storage (a : smtppool.Attachment) (f : Attachment.t) : Prop :=
  (∃ l, smtppool.Header a = Some l ∧ Attachment.Header f = Some l) ∨
  (∃ l, slice_arr (smtppool.Content a) = Some l ∧
        slice_arr (Attachment.Content f) = Some l).

Definition deep_copied (msg : Message.t) (w : World) : Prop :=
  ∀ atts files i f a,
    Message.Attachments msg = Some atts →
    smtppool.Attachments (build_email msg w).1 = Some files →
    atts !! i = Some f →
    files !! i = Some a →
    ¬ shares_storage a f ∧
    read_slice (mem (build_email msg w).2) (smtppool.Content a) =
      read_slice (mem w) (Attachment.Content f).

(** The events a call added to the trace, given the worlds before and
    after it. *)
Definition calls_made (w w' : World) : list Event :=
  drop (length (trace w)) (trace w').

(** A later world in which everything allocated in [w] is as it was. *)
Definition extends (w w' : World) : Prop :=
  (∀ l, l ∈ dom (mem w) → mem w' !! l = mem w !! l) ∧
  hdrs w' = hdrs w ∧ trace w' = trace w.

(** The record [a] was built from [f] in world [w], and [w'] holds it:
    name and header reference carried over, the content in an array that
    did not exist in [w]. *)
Definition copied_from (w w' : World) (f : Attachment.t)
    (a : smtppool.Attachment) : Prop :=
  smtppool.Filename a = Attachment.Name f ∧
  smtppool.Header a = Attachment.Header f ∧
  ∃ l, smtppool.Content a =
         Slice l 0 (slice_len (Attachment.Content f))
                   (slice_len (Attachment.Content f)) ∧
       (l ∉ dom (mem w)) ∧
       mem w' !! l = Some (read_slice (mem w) (Attachment.Content f)).

(** Collaborators for the constructors: fixed replies of the decoder, of
    the session factory and of the identity check. *)
Definition scripted_ctor
    (parsed_ses : error + sesCfg.t)
    (parsed_sms : error + pinpointCfg.t)
    (session_reply : aws.Config → error + aws.Session)
    (identity_reply : option error) : Collaborators :=
  {| email_Bytes := λ _ _, inr [];
     ses_SendRawEmail := λ _ _ _, inr (ses.mkOutput (Some "0100-id"));
     pinpoint_SendMessages := λ _ _ _, inr (pinpoint.mkOutput None);
     sts_GetCallerIdentity := λ _ _, identity_reply;
     session_NewSession := λ c _, session_reply c;
     json_Unmarshal_sesCfg := λ _ _, parsed_ses;
     json_Unmarshal_pinpointCfg := λ _ _, parsed_sms;
     fmt_Sprintf_email := λ _, "&ses.SendRawEmailOutput{...}";
     fmt_Sprintf_sms := λ _, "&pinpoint.MessageResult{...}" |}.

Definition json_error : error :=
  externalError "encoding/json" "unexpected end of JSON input".

Definition transport_error : error :=
  externalError "awserr" "Throttling: rate exceeded".

Definition identity_error : error :=
  externalError "awserr" "InvalidClientTokenId".

Definition sescfg_keys : sesCfg.t := sesCfg.mk "AKIA" "secret" "eu-west-1" true.

Definition smscfg_keys : pinpointCfg.t :=
  pinpointCfg.mk "A1" "AKIA" "secret" "eu-west-1" "TRANSACTIONAL" "S" false.

Definition config_keys : aws.Config :=
  aws.mkConfig (Some 3) (Some (aws.NewStaticCredentials "AKIA" "secret" ""))
    (Some "eu-west-1").

Definition msg_two_attachments : Message.t :=
  Message.mk "x@y.com" [] "hello" "plain" (Slice 2 0 2 2) NilSlice None
    (Some [attachment0; Attachment.mk "b.txt" None (Slice 2 0 2 2)])
    subscriber0 None.

Definition is_log (e : Event) : bool :=
  match e with
  | EvLog _ _ _ => true
  | _ => false
  end.

(** The log line the SMS adapter writes for one entry of the results. *)
Definition sms_log_line `{C : Collaborators} (l : Logger)
    (entry : string * option pinpoint.MessageResult) : Event :=
  EvLog l "successfully sent sms"
    [("phone", entry.1); ("result", fmt_Sprintf_sms entry.2)].

(** ** Content selection and the From address *)

Lemma build_email_text (msg : Message.t) (w : World) :
  smtppool.Text (build_email msg w).1 =
    if bool_decide (Message.ContentType msg = ContentTypePlain)
    then Message.Body msg else NilSlice.
Proof.
  unfold build_email.
  destruct (convert_attachments _ _) as [files w1]; cbn.
  by case_bool_decide.
Qed.

Lemma build_email_html (msg : Message.t) (w : World) :
  smtppool.HTML (build_email msg w).1 =
    if bool_decide (Message.ContentType msg = ContentTypePlain)
    then NilSlice else Message.Body msg.
Proof.
  unfold build_email.
  destruct (convert_attachments _ _) as [files w1]; cbn.
  by case_bool_decide.
Qed.

Lemma build_email_from (msg : Message.t) (w : World) :
  smtppool.From (build_email msg w).1 = resolve_from msg ∧
  smtppool.Sender (build_email msg w).1 = Message.From msg ∧
  smtppool.To (build_email msg w).1 = [models.Email (Message.Subscriber msg)].
Proof.
  unfold build_email.
  destruct (convert_attachments _ _) as [files w1]; cbn.
  by case_bool_decide.
Qed.

(** C1: the envelope built for a message whose ContentType is "plain"
    has the message body as its text body and a nil HTML body; for every
    other ContentType, "html" and the empty string among them, it has the
    message body as its HTML body and a nil text body.  At most one of
    the two is ever set, and when the body is not empty exactly one of
    them is not empty. *)
Theorem C1_content_selection (msg : Message.t) (w : World) :
  let email := (build_email msg w).1 in
  (Message.ContentType msg = "plain" →
     smtppool.Text email = Message.Body msg ∧ smtppool.HTML email = NilSlice) ∧
  (Message.ContentType msg ≠ "plain" →
     smtppool.HTML email = Message.Body msg ∧ smtppool.Text email = NilSlice) ∧
  (Message.ContentType msg = "html" ∨ Message.ContentType msg = "" →
     smtppool.HTML email = Message.Body msg ∧ smtppool.Text email = NilSlice) ∧
  (smtppool.Text email = NilSlice ∨ smtppool.HTML email = NilSlice) ∧
  (0 < slice_len (Message.Body msg) →
     (0 < slice_len (smtppool.Text email) ∧ slice_len (smtppool.HTML email) = 0) ∨
     (0 < slice_len (smtppool.HTML email) ∧ slice_len (smtppool.Text email) = 0)).
Proof.
  intros email. subst email.
  rewrite build_email_text, build_email_html.
  unfold ContentTypePlain.
  case_bool_decide as Hct.
  - split; [done|]. split; [done|]. split.
    { intros [E|E]; rewrite E in Hct; discriminate. }
    split; [by right|]. intros Hlen. by left.
  - split; [done|]. split; [done|]. split; [done|].
    split; [by left|]. intros Hlen. by right.
Qed.

Lemma C1_content_selection_witness :
  (smtppool.Text (build_email msg_plain world0).1 = Slice 2 0 2 2 ∧
   smtppool.HTML (build_email msg_plain world0).1 = NilSlice) ∧
  (smtppool.HTML (build_email msg_html world0).1 = Slice 1 0 9 9 ∧
   smtppool.Text (build_email msg_html world0).1 = NilSlice).
Proof.
  split.
  - apply (C1_content_selection msg_plain world0). reflexivity.
  - apply (C1_content_selection msg_html world0). left. reflexivity.
Defined.

(** C3: the From address of the envelope is the campaign's FromEmail when
    the message refers to a campaign, whatever Message.From holds, and
    Message.From when it does not; the Sender is Message.From either
    way. *)
Theorem C3_from_address (msg : Message.t) (w : World) :
  let email := (build_email msg w).1 in
  (∀ c, Message.Campaign msg = Some c →
        smtppool.From email = models.FromEmail c) ∧
  (Message.Campaign msg = None → smtppool.From email = Message.From msg) ∧
  smtppool.Sender email = Message.From msg.
Proof.
  intros email. subst email.
  destruct (build_email_from msg w) as (Hfrom & Hsender & _).
  rewrite Hfrom, Hsender. unfold resolve_from.
  repeat split.
  - intros c Hc. by rewrite Hc.
  - intros Hc. by rewrite Hc.
Qed.

Lemma C3_from_address_witness :
  smtppool.From (build_email msg_plain world0).1 = "news@y.com" ∧
  smtppool.Sender (build_email msg_plain world0).1 = "x@y.com" ∧
  smtppool.From (build_email msg_html world0).1 = "x@y.com".
Proof.
  destruct (C3_from_address msg_plain world0) as (Hcamp & _ & Hsender).
  destruct (C3_from_address msg_html world0) as (_ & Hnone & _).
  split; [|split].
  - apply (Hcamp (models.mkCampaign "news@y.com")). reflexivity.
  - apply Hsender.
  - apply Hnone. reflexivity.
Defined.

(** ** What building the envelope does to the world *)

Lemma extends_refl (w : World) : extends w w.
Proof. by unfold extends. Qed.

Lemma extends_trans (w1 w2 w3 : World) :
  extends w1 w2 → extends w2 w3 → extends w1 w3.
Proof.
  intros (Hm12 & Hh12 & Ht12) (Hm23 & Hh23 & Ht23).
  split; [|split; congruence].
  intros l Hl. rewrite <- (Hm12 l Hl). apply Hm23.
  apply elem_of_dom. rewrite (Hm12 l Hl). by apply elem_of_dom.
Qed.

Lemma extends_dom (w w' : World) (l : loc) :
  extends w w' → l ∈ dom (mem w) → l ∈ dom (mem w').
Proof.
  intros (Hm & _) Hl. apply elem_of_dom. rewrite (Hm l Hl).
  by apply elem_of_dom.
Qed.

Lemma slice_ok_arr (m : gmap loc (list byte)) (s : byteslice) (l : loc) :
  slice_ok m s = true → slice_arr s = Some l → l ∈ dom m.
Proof.
  destruct s as [|a off n c]; [done|]. cbn. intros Hok [= <-].
  apply elem_of_dom. destruct (m !! a); [done | discriminate].
Qed.

Lemma read_slice_extends (w w' : World) (s : byteslice) :
  extends w w' → slice_ok (mem w) s = true →
  read_slice (mem w') s = read_slice (mem w) s.
Proof.
  intros (Hm & _) Hok. destruct s as [|a off n c]; [done|].
  cbn. rewrite (Hm a); [done|]. by eapply slice_ok_arr.
Qed.

Lemma slice_ok_extends (w w' : World) (s : byteslice) :
  extends w w' → slice_ok (mem w) s = true → slice_ok (mem w') s = true.
Proof.
  intros (Hm & _) Hok. destruct s as [|a off n c]; [done|].
  cbn in *. rewrite (Hm a); [done|].
  apply elem_of_dom. destruct (mem w !! a); [done | discriminate].
Qed.

Lemma read_slice_length (m : gmap loc (list byte)) (s : byteslice) :
  slice_ok m s = true → length (read_slice m s) = slice_len s.
Proof.
  destruct s as [|a off n c]; [done|]. cbn.
  destruct (m !! a) as [bs|]; [|discriminate].
  intros [Hn Hc]%bool_decide_eq_true.
  rewrite length_take, length_drop. lia.
Qed.

(** One attachment: the record points at a fresh array that holds the
    caller's bytes, and nothing else in the world changes. *)
Lemma convert_attachment_spec (f : Attachment.t) (w : World) :
  slice_ok (mem w) (Attachment.Content f) = true →
  let l := fresh (dom (mem w)) in
  let n := slice_len (Attachment.Content f) in
  convert_attachment f w =
    (smtppool.mkAttachment (Attachment.Name f) (Attachment.Header f)
       (Slice l 0 n n),
     set_mem (<[l := read_slice (mem w) (Attachment.Content f)]> (mem w)) w).
Proof.
  intros Hok l n. unfold convert_attachment, make_bytes, copy. cbn.
  fold l n. rewrite lookup_insert_eq, Nat.min_id, insert_insert_eq.
  assert (Hfresh : l ∉ dom (mem w)) by apply is_fresh.
  assert (Hread : read_slice (<[l:=replicate n Byte.x00]> (mem w))
                    (Attachment.Content f)
                  = read_slice (mem w) (Attachment.Content f)).
  { destruct (Attachment.Content f) as [|a off k c] eqn:E; [done|]. cbn.
    rewrite lookup_insert_ne; [done|]. intros ->. apply Hfresh.
    by eapply slice_ok_arr. }
  rewrite Hread.
  assert (Hlen : length (read_slice (mem w) (Attachment.Content f)) = n)
    by by apply read_slice_length.
  rewrite firstn_all2 by lia.
  unfold write_at, set_mem. cbn. rewrite Hlen.
  rewrite drop_ge by (rewrite length_replicate; lia).
  by rewrite app_nil_r.
Qed.

Lemma convert_attachment_extends (f : Attachment.t) (w : World) :
  slice_ok (mem w) (Attachment.Content f) = true →
  extends w (convert_attachment f w).2 ∧
  copied_from w (convert_attachment f w).2 f (convert_attachment f w).1.
Proof.
  intros Hok. rewrite (convert_attachment_spec f w Hok). cbn.
  assert (Hfresh : fresh (dom (mem w)) ∉ dom (mem w)) by apply is_fresh.
  split.
  - split; [|done]. intros l Hl. cbn.
    rewrite lookup_insert_ne; [done|]. by intros <-.
  - split; [done|]. split; [done|].
    exists (fresh (dom (mem w))). split; [done|]. split; [done|].
    cbn. by rewrite lookup_insert_eq.
Qed.

Lemma copied_from_weaken (w0 w1 w2 : World) (f : Attachment.t)
    (a : smtppool.Attachment) :
  extends w0 w1 → extends w1 w2 →
  slice_ok (mem w0) (Attachment.Content f) = true →
  copied_from w1 w2 f a → copied_from w0 w2 f a.
Proof.
  intros H01 H12 Hok (Hn & Hh & l & Hc & Hl & Hm).
  split; [done|]. split; [done|]. exists l. split; [done|]. split.
  - intros Hin. apply Hl. by eapply extends_dom.
  - rewrite Hm. f_equal. by apply read_slice_extends.
Qed.

Lemma copied_from_later (w0 w1 w2 : World) (f : Attachment.t)
    (a : smtppool.Attachment) :
  extends w1 w2 → copied_from w0 w1 f a → copied_from w0 w2 f a.
Proof.
  intros (H12 & _) (Hn & Hh & l & Hc & Hl & Hm).
  split; [done|]. split; [done|]. exists l. split; [done|]. split; [done|].
  rewrite H12; [done|]. apply elem_of_dom. by rewrite Hm.
Qed.

Lemma convert_loop_cons (f : Attachment.t) (rest : list Attachment.t)
    (files : list smtppool.Attachment) (w : World) :
  convert_loop (f :: rest) files w =
    convert_loop rest (files ++ [(convert_attachment f w).1])
      (convert_attachment f w).2.
Proof. cbn [convert_loop]. by destruct (convert_attachment f w). Qed.

(** The loop: one record per attachment, in order, after the records
    already in [files]. *)
Lemma convert_loop_spec (atts : list Attachment.t) :
  ∀ (files : list smtppool.Attachment) (w : World),
    Forall (λ f, slice_ok (mem w) (Attachment.Content f) = true) atts →
    ∃ news,
      (convert_loop atts files w).1 = files ++ news ∧
      extends w (convert_loop atts files w).2 ∧
      NoDup (omap (λ a, slice_arr (smtppool.Content a)) news) ∧
      Forall2 (copied_from w (convert_loop atts files w).2) atts news.
Proof.
  induction atts as [|f rest IH]; intros files w Hok.
  - exists []. cbn. rewrite app_nil_r. split; [done|].
    split; [apply extends_refl |]. split; constructor.
  - apply Forall_cons in Hok as [Hf Hrest]. rewrite convert_loop_cons.
    destruct (convert_attachment_extends f w Hf) as [Hext Hcopy].
    destruct (convert_attachment f w) as [a w1] eqn:E. cbn [fst snd] in *.
    assert (Hrest1 : Forall (λ g, slice_ok (mem w1) (Attachment.Content g) = true) rest).
    { eapply Forall_impl; [exact Hrest|]. intros g Hg.
      by eapply slice_ok_extends. }
    destruct (IH (files ++ [a]) w1 Hrest1)
      as (news & Hres & Hext1 & Hnd & Hall).
    exists (a :: news). split; [|split; [|split]].
    + rewrite Hres. by rewrite <- app_assoc.
    + by eapply extends_trans.
    + destruct Hcopy as (_ & _ & l & Hc & Hl & Hm). cbn. rewrite Hc. cbn.
      constructor; [|done].
      intros Hin. apply list_elem_of_omap in Hin as (b & Hb & Harr).
      apply list_elem_of_lookup in Hb as [i Hi].
      destruct (Forall2_lookup_r _ _ _ _ _ Hall Hi) as (g & Hg & Hgb).
      destruct Hgb as (_ & _ & l' & Hc' & Hl' & Hm').
      rewrite Hc' in Harr. cbn in Harr. injection Harr as ->.
      apply Hl'. apply elem_of_dom. by rewrite Hm.
    + constructor.
      * by eapply copied_from_later.
      * clear Hres IH Hrest1 E Hnd.
        remember (convert_loop rest (files ++ [a]) w1).2 as w2 eqn:Ew2.
        clear Ew2.
        induction Hall as [|g b rest' news' Hgb Hall' IH']; [constructor|].
        apply Forall_cons in Hrest as [Hg Hrest'].
        constructor; [|by apply IH'].
        by eapply copied_from_weaken.
Qed.

Lemma build_email_attachments (msg : Message.t) (w : World) :
  smtppool.Attachments (build_email msg w).1 =
    (convert_attachments (Message.Attachments msg) w).1 ∧
  (build_email msg w).2 = (convert_attachments (Message.Attachments msg) w).2.
Proof.
  unfold build_email.
  destruct (convert_attachments _ _) as [files w1]; cbn.
  by case_bool_decide.
Qed.

(** Building the envelope calls nobody: the trace and the header maps are
    as before, whatever the slices of the message look like. *)
Lemma copy_trace (dst src : byteslice) (w : World) :
  trace (copy dst src w).2 = trace w ∧ hdrs (copy dst src w).2 = hdrs w.
Proof.
  unfold copy. destruct dst as [|a off n c]; [done|].
  by destruct (mem w !! a).
Qed.

Lemma convert_attachment_trace (f : Attachment.t) (w : World) :
  trace (convert_attachment f w).2 = trace w ∧
  hdrs (convert_attachment f w).2 = hdrs w.
Proof.
  unfold convert_attachment.
  destruct (make_bytes _ w) as [buf w1] eqn:Emk.
  assert (Hmk : trace w1 = trace w ∧ hdrs w1 = hdrs w).
  { unfold make_bytes in Emk. by injection Emk as <- <-. }
  cbn [smtppool.Content].
  pose proof (copy_trace buf (Attachment.Content f) w1) as Hcp.
  destruct (copy buf (Attachment.Content f) w1) as [k w2].
  cbn [snd] in *. destruct Hmk, Hcp. split; congruence.
Qed.

Lemma convert_loop_trace (atts : list Attachment.t) :
  ∀ (files : list smtppool.Attachment) (w : World),
    trace (convert_loop atts files w).2 = trace w ∧
    hdrs (convert_loop atts files w).2 = hdrs w.
Proof.
  induction atts as [|f rest IH]; intros files w; [done|].
  rewrite convert_loop_cons.
  destruct (IH (files ++ [(convert_attachment f w).1])
              (convert_attachment f w).2) as [Ht Hh].
  destruct (convert_attachment_trace f w) as [Ht1 Hh1].
  split; congruence.
Qed.

Lemma build_email_trace (msg : Message.t) (w : World) :
  trace (build_email msg w).2 = trace w.
Proof.
  destruct (build_email_attachments msg w) as [_ ->].
  unfold convert_attachments.
  destruct (Message.Attachments msg) as [atts|]; [|done].
  pose proof (convert_loop_trace atts [] w) as [Ht _].
  by destruct (convert_loop atts [] w).
Qed.

(** ** Attachments *)

(** Every record of the envelope, read in any world that differs from
    the one [Push] left only in storage that existed before the call,
    still holds the bytes the caller's attachment had at the call. *)
Lemma copied_from_stable (w w' w'' : World) (f : Attachment.t)
    (a : smtppool.Attachment) :
  slice_ok (mem w) (Attachment.Content f) = true →
  copied_from w w' f a →
  (∀ l, l ∉ dom (mem w) → mem w'' !! l = mem w' !! l) →
  read_slice (mem w'') (smtppool.Content a) =
    read_slice (mem w) (Attachment.Content f).
Proof.
  intros Hok (_ & _ & l & -> & Hl & Hm) Hsame. cbn.
  rewrite (Hsame l Hl), Hm. rewrite drop_0.
  apply firstn_all2. by rewrite read_slice_length.
Qed.

(** A store through a slice that is well formed in [w] touches only
    storage of [w]. *)
Lemma store_byte_frame (w w' w'' : World) (s : byteslice) (i : nat) (b : byte) :
  slice_ok (mem w) s = true →
  store_byte s i b w' = Returned w'' →
  ∀ l, l ∉ dom (mem w) → mem w'' !! l = mem w' !! l.
Proof.
  intros Hok Hst l Hl. destruct s as [|a off n c]; [discriminate|].
  cbn in Hst. case_bool_decide; [|discriminate].
  destruct (mem w' !! a) as [bs|] eqn:E; [|discriminate].
  injection Hst as <-. cbn. rewrite lookup_insert_ne; [done|].
  intros ->. apply Hl. by eapply slice_ok_arr.
Qed.

(** C2, as the code has it: for a message with attachments whose content
    slices are well formed, the envelope holds one record per attachment,
    in order, with the attachment's name, with the attachment's header
    reference itself (the header map is shared, not copied), and with a
    content slice that covers a backing array allocated during the call,
    different from every array that existed before and from the arrays of
    the other records.  That array holds exactly the bytes the caller's
    content slice denoted when Push was called, and still does after any
    later change confined to storage that existed before the call, a
    store through one of the caller's content slices in particular. *)
Theorem C2_attachment_content_copied (msg : Message.t) (w : World)
    (atts : list Attachment.t) :
  Message.Attachments msg = Some atts →
  Forall (λ f, slice_ok (mem w) (Attachment.Content f) = true) atts →
  let email := (build_email msg w).1 in
  let w' := (build_email msg w).2 in
  ∃ files,
    smtppool.Attachments email = Some files ∧
    length files = length atts ∧
    NoDup (omap (λ a, slice_arr (smtppool.Content a)) files) ∧
    ∀ i f a, atts !! i = Some f → files !! i = Some a →
      smtppool.Filename a = Attachment.Name f ∧
      smtppool.Header a = Attachment.Header f ∧
      (∃ l, slice_arr (smtppool.Content a) = Some l ∧ l ∉ dom (mem w)) ∧
      slice_arr (smtppool.Content a) ≠ slice_arr (Attachment.Content f) ∧
      read_slice (mem w') (smtppool.Content a) =
        read_slice (mem w) (Attachment.Content f) ∧
      (∀ w'', (∀ l, l ∉ dom (mem w) → mem w'' !! l = mem w' !! l) →
         read_slice (mem w'') (smtppool.Content a) =
           read_slice (mem w) (Attachment.Content f)) ∧
      (∀ g j b w'', g ∈ atts →
         store_byte (Attachment.Content g) j b w' = Returned w'' →
         read_slice (mem w'') (smtppool.Content a) =
           read_slice (mem w) (Attachment.Content f)).
Proof.
  intros Hatts Hok email w'. subst email w'.
  destruct (build_email_attachments msg w) as [-> ->].
  rewrite Hatts. unfold convert_attachments.
  destruct (convert_loop_spec atts [] w Hok)
    as (files & Hres & Hext & Hnd & Hall).
  destruct (convert_loop atts [] w) as [files' w'] eqn:E.
  cbn [fst snd] in *. rewrite app_nil_l in Hres. subst files'.
  exists files. split; [done|].
  split; [symmetry; apply (Forall2_length _ _ _ Hall)|].
  split; [done|].
  intros i f a Hf Ha.
  assert (Hfa : copied_from w w' f a) by by eapply Forall2_lookup_lr.
    assert (Hokf : slice_ok (mem w) (Attachment.Content f) = true).
    { eapply (Forall_lookup_1 _ _ _ _ Hok Hf). }
    pose proof Hfa as (Hn & Hh & l & Hc & Hl & Hm).
    split; [done|]. split; [done|]. split.
    { exists l. by rewrite Hc. }
    split.
    { rewrite Hc. cbn. intros Heq. apply Hl.
      eapply slice_ok_arr; [exact Hokf | by symmetry]. }
    split.
    { eapply copied_from_stable; [exact Hokf | exact Hfa | done]. }
    split.
    { intros w'' Hsame. by eapply copied_from_stable. }
    intros g j b w'' Hg Hst.
    eapply copied_from_stable; [exact Hokf | exact Hfa |].
    eapply store_byte_frame; [|exact Hst].
    by eapply (proj1 (Forall_forall _ _) Hok).
Qed.

Lemma C2_attachment_content_copied_witness :
  ∃ files,
    smtppool.Attachments (build_email msg_attach world0).1 = Some files ∧
    length files = 1 ∧
    ∀ a, files !! 0 = Some a →
      smtppool.Header a = Some 1%positive ∧
      read_slice (mem (build_email msg_attach world0).2) (smtppool.Content a) =
        bytes_of "%PDF-1.7".
Proof.
  destruct (C2_attachment_content_copied msg_attach world0 [attachment0])
    as (files & Hfiles & Hlen & _ & Hrec).
  - reflexivity.
  - constructor; [reflexivity | constructor].
  - exists files. split; [exact Hfiles|]. split; [exact Hlen|].
    intros a Ha.
    destruct (Hrec 0 attachment0 a eq_refl Ha) as (_ & Hh & _ & _ & Hread & _).
    split; [exact Hh | exact Hread].
Defined.

(** C2, as the specification words it, fails: the record built for an attachment
    whose Header is a map refers to that very map, so a later write to the
    caller's header is seen through the record. *)
Lemma C2_header_shared_counterexample :
  ¬ deep_copied msg_attach world0 ∧
  ∃ a w2,
    smtppool.Attachments (build_email msg_attach world0).1 = Some [a] ∧
    header_get (build_email msg_attach world0).2 (smtppool.Header a) "X-Late" = None ∧
    header_set (Attachment.Header attachment0) "X-Late" ["1"]
      (build_email msg_attach world0).2 = Returned w2 ∧
    header_get w2 (smtppool.Header a) "X-Late" = Some ["1"].
Proof.
  set (a0 := smtppool.mkAttachment "a.pdf" (Some 1%positive) (Slice 4 0 8 8)).
  assert (Hfiles : smtppool.Attachments (build_email msg_attach world0).1
                   = Some [a0]) by (vm_compute; reflexivity).
  split.
  - intros Hdeep.
    destruct (Hdeep [attachment0] [a0] 0 attachment0 a0 eq_refl Hfiles
                eq_refl eq_refl) as [Hns _].
    apply Hns. left. exists 1%positive. split; reflexivity.
  - exists a0. eexists. split; [exact Hfiles|].
    split; [vm_compute; reflexivity|].
    split; [vm_compute; reflexivity|].
    vm_compute. reflexivity.
Qed.

(** ** The SMS adapter *)

Lemma assert_string_fails (x : option any) :
  (∀ s, x ≠ Some (anyString s)) → assert_string x = ("", false).
Proof.
  intros Hne. destruct x as [[]|]; try done. by destruct (Hne s).
Qed.

Lemma calls_made_same (w w' : World) :
  trace w' = trace w → calls_made w w' = [].
Proof. intros E. unfold calls_made. rewrite E. by apply drop_all. Qed.

Lemma calls_made_emit (w w' : World) (e : Event) :
  trace w' = trace w → calls_made w (emit e w') = [e].
Proof.
  intros E. unfold calls_made, emit. cbn. rewrite E.
  by rewrite drop_app_length.
Qed.

(** C4: when the subscriber's attributes do not bind "phone" to a string
    (the key is absent, or bound to a value of another type), the SMS
    Push returns the empty identifier with the error "could not find
    subscriber phone" and leaves the world as it was: the call adds no
    event to the trace, so the send operation is not invoked. *)
Theorem C4_missing_phone `{C : Collaborators} (p : pinpointMessenger.t)
    (msg : Message.t) (w : World) :
  (∀ s, models.Attribs (Message.Subscriber msg) !! "phone" ≠ Some (anyString s)) →
  pinpointMessenger_Push p msg w =
    (Returned ("", Some (fmt_Errorf "could not find subscriber phone")), w) ∧
  calls_made w (pinpointMessenger_Push p msg w).2 = [].
Proof.
  intros Hne.
  assert (Hpush : pinpointMessenger_Push p msg w =
    (Returned ("", Some (fmt_Errorf "could not find subscriber phone")), w)).
  { unfold pinpointMessenger_Push. by rewrite (assert_string_fails _ Hne). }
  split; [done|]. rewrite Hpush. by apply calls_made_same.
Qed.

Lemma C4_missing_phone_witness :
  @pinpointMessenger_Push
     (scripted (inr []) (inr (ses.mkOutput None)) (inr sms_results)
        (inr pinpointCfg.zero))
     pinpoint0 msg_nophone world0 =
    (Returned ("", Some (errorString "could not find subscriber phone")), world0).
Proof.
  apply (@C4_missing_phone
           (scripted (inr []) (inr (ses.mkOutput None)) (inr sms_results)
              (inr pinpointCfg.zero))
           pinpoint0 msg_nophone world0).
  intros s. vm_compute. discriminate.
Defined.

Example missing_phone_key :
  @pinpointMessenger_Push
     (scripted (inr []) (inr (ses.mkOutput None)) (inr sms_results)
        (inr pinpointCfg.zero))
     pinpoint0
     (Message.mk "" [] "" "" NilSlice NilSlice None None
        (models.mkSubscriber "a@b.com" ∅) None)
     world0 =
    (Returned ("", Some (errorString "could not find subscriber phone")), world0).
Proof. reflexivity. Qed.





(** The send operation is invoked exactly once when the phone attribute
    is a string and logging is off. *)
Lemma sms_push_calls_once `{C : Collaborators} (p : pinpointMessenger.t)
    (msg : Message.t) (w : World) (phone : string) :
  models.Attribs (Message.Subscriber msg) !! "phone" = Some (anyString phone) →
  pinpointCfg.Log (pinpointMessenger.cfg p) = false →
  calls_made w (pinpointMessenger_Push p msg w).2 =
    [EvSendMessages (pinpointMessenger.client p)
       (sms_payload p phone
          (string_of_list_byte (read_slice (mem w) (Message.Body msg))))].
Proof.
  intros Hphone Hlog. unfold pinpointMessenger_Push.
  rewrite Hphone. cbn. rewrite Hlog.
  destruct (pinpoint_SendMessages _ _ _); by apply calls_made_emit.
Qed.

(** C8: when the configuration blob parses and the parsed configuration
    has an empty AppID (a missing app_id leaves the zero value in place),
    NewPinpoint returns a nil Messenger and the error "invalid app_id",
    and the world is as before: no session is created and the identity
    check is not called. *)
Theorem C8_missing_app_id `{C : Collaborators} (cfg : list byte) (l : Logger)
    (w : World) (c : pinpointCfg.t) :
  json_Unmarshal_pinpointCfg cfg pinpointCfg.zero = inr c →
  pinpointCfg.AppID c = "" →
  NewPinpoint cfg l w = (Returned (None, Some (fmt_Errorf "invalid app_id")), w) ∧
  calls_made w (NewPinpoint cfg l w).2 = [].
Proof.
  intros Hparse Hid.
  assert (Hnew : NewPinpoint cfg l w =
            (Returned (None, Some (fmt_Errorf "invalid app_id")), w)).
  { unfold NewPinpoint. rewrite Hparse, Hid. by rewrite bool_decide_eq_true_2. }
  split; [done|]. rewrite Hnew. by apply calls_made_same.
Qed.

Lemma C8_missing_app_id_witness :
  @NewPinpoint
    (scripted (inr []) (inr (ses.mkOutput None)) (inr sms_results)
       (inr (pinpointCfg.mk "" "k" "s" "eu-west-1" "TRANSACTIONAL" "S" true)))
    (bytes_of "{}") (mkLogger 0) world0
  = (Returned (None, Some (errorString "invalid app_id")), world0).
Proof.
  apply (@C8_missing_app_id
    (scripted (inr []) (inr (ses.mkOutput None)) (inr sms_results)
       (inr (pinpointCfg.mk "" "k" "s" "eu-west-1" "TRANSACTIONAL" "S" true)))
    (bytes_of "{}") (mkLogger 0) world0
    (pinpointCfg.mk "" "k" "s" "eu-west-1" "TRANSACTIONAL" "S" true)).
  - reflexivity.
  - reflexivity.
Defined.

(** With an application identifier the constructor goes on to create the
    session and to check the credentials. *)
Example NewPinpoint_with_app_id :
  calls_made world0
    (@NewPinpoint
       (scripted (inr []) (inr (ses.mkOutput None)) (inr sms_results)
          (inr (pinpointCfg.mk "A1" "" "" "" "TRANSACTIONAL" "S" false)))
       (bytes_of "{}") (mkLogger 0) world0).2
  = [EvNewSession (aws.mkConfig (Some 3) None None);
     EvGetCallerIdentity (aws.mkSession (aws.mkConfig (Some 3) None None))].
Proof. vm_compute. reflexivity. Qed.

(** ** The e-mail adapter *)

(** C5: when the serialization of the envelope fails, the e-mail Push
    returns the empty identifier together with that very error, and the
    call adds no event to the trace: SendRawEmail is not invoked. *)
Theorem C5_serialization_error `{C : Collaborators} (s : sesMessenger.t)
    (msg : Message.t) (w : World) (err : error) :
  email_Bytes (build_email msg w).1 (build_email msg w).2 = inl err →
  (sesMessenger_Push s msg w).1 = Returned ("", Some err) ∧
  calls_made w (sesMessenger_Push s msg w).2 = [] ∧
  ∀ c i, EvSendRawEmail c i ∉ calls_made w (sesMessenger_Push s msg w).2.
Proof.
  intros Hmime. unfold sesMessenger_Push.
  pose proof (build_email_trace msg w) as Htrace.
  destruct (build_email msg w) as [email w1]. cbn [fst snd] in *.
  rewrite Hmime. cbn [fst snd].
  rewrite (calls_made_same w w1 Htrace).
  split; [done|]. split; [done|]. intros c i Hin. by apply elem_of_nil in Hin.
Qed.

Lemma C5_serialization_error_witness :
  (@sesMessenger_Push
     (scripted (inl mime_error) (inr (ses.mkOutput (Some "0100-id")))
        (inr sms_results) (inr pinpointCfg.zero))
     ses0 msg_attach world0).1 = Returned ("", Some mime_error).
Proof.
  apply (@C5_serialization_error
     (scripted (inl mime_error) (inr (ses.mkOutput (Some "0100-id")))
        (inr sms_results) (inr pinpointCfg.zero))
     ses0 msg_attach world0 mime_error).
  reflexivity.
Defined.



(** C9: after a SendRawEmail that answered without an error, the e-mail
    Push dereferences the MessageId of the answer whether or not it is
    nil: if it is nil the call panics, it does not return an error; and
    whenever the call returns, the answer carried an identifier and that
    identifier is what is returned. *)
Theorem C9_nil_message_id_panics `{C : Collaborators} (s : sesMessenger.t)
    (msg : Message.t) (w : World) (raw : list byte)
    (out : ses.SendRawEmailOutput) :
  email_Bytes (build_email msg w).1 (build_email msg w).2 = inr raw →
  ses_SendRawEmail (sesMessenger.client s)
    (raw_email_input (build_email msg w).1 msg raw) (build_email msg w).2
    = inr out →
  (ses.MessageId out = None →
     (sesMessenger_Push s msg w).1 = Panicked "nil pointer dereference") ∧
  (∀ r, (sesMessenger_Push s msg w).1 = Returned r →
     ∃ id, ses.MessageId out = Some id ∧ r = (id, None)).
Proof.
  intros Hmime Hsend. unfold sesMessenger_Push.
  destruct (build_email msg w) as [email w1]. cbn [fst snd] in *.
  rewrite Hmime, Hsend.
  destruct (ses.MessageId out) as [id|]; cbn [fst].
  - split; [done|]. intros r [= <-]. by exists id.
  - split; [done|]. intros r Hr. discriminate.
Qed.

Lemma C9_nil_message_id_panics_witness :
  (@sesMessenger_Push
     (scripted (inr (bytes_of "MIME-Version: 1.0"))
        (inr (ses.mkOutput None))
        (inr sms_results) (inr pinpointCfg.zero))
     ses0 msg_html world0).1 = Panicked "nil pointer dereference".
Proof.
  apply (@C9_nil_message_id_panics
     (scripted (inr (bytes_of "MIME-Version: 1.0"))
        (inr (ses.mkOutput None))
        (inr sms_results) (inr pinpointCfg.zero))
     ses0 msg_html world0 (bytes_of "MIME-Version: 1.0")
     (ses.mkOutput None)).
  - reflexivity.
  - reflexivity.
  - reflexivity.
Defined.

(** The send is submitted once, from the resolved From address to the
    subscriber's address. *)
Lemma email_push_calls_once `{C : Collaborators} (s : sesMessenger.t)
    (msg : Message.t) (w : World) (raw : list byte) :
  email_Bytes (build_email msg w).1 (build_email msg w).2 = inr raw →
  sesCfg.Log (sesMessenger.cfg s) = false →
  calls_made w (sesMessenger_Push s msg w).2 =
    [EvSendRawEmail (sesMessenger.client s)
       (ses.mkInput (Some (resolve_from msg))
          [Some (models.Email (Message.Subscriber msg))]
          (Some (ses.mkRawMessage raw)))].
Proof.
  intros Hmime Hlog. unfold sesMessenger_Push.
  pose proof (build_email_trace msg w) as Htrace.
  destruct (build_email_from msg w) as (Hfrom & _).
  destruct (build_email msg w) as [email w1]. cbn [fst snd] in *.
  rewrite Hmime, Hlog. unfold raw_email_input. rewrite Hfrom.
  destruct (ses_SendRawEmail _ _ _) as [e|out]; cbn [snd].
  - by apply calls_made_emit.
  - destruct (ses.MessageId out); by apply calls_made_emit.
Qed.

(** ** Name, Flush and Close *)

(** C10: over any sequence of calls to Name, Flush and Close, on either
    adapter and from any world, every Name returns the adapter's fixed
    string ("ses" or "pinpoint", both lowercase), every Flush and Close
    returns no error, and the world at the end is the world at the
    start. *)
Theorem C10_name_flush_close (m : Messenger) (cs : list call) (w : World) :
  (run_calls m cs w).2 = w ∧
  (run_calls m cs w).1 =
    map (λ c, match c with
              | CallName =>
                  ReplyName (match m with
                             | OfSES _ => "ses"
                             | OfPinpoint _ => "pinpoint"
                             end)
              | CallFlush | CallClose => ReplyError None
              end) cs ∧
  all_lower (Name m) = true ∧
  Flush m w = (None, w) ∧ Close m w = (None, w).
Proof.
  split; [|split; [|split; [|split]]].
  - induction cs as [|c rest IH]; [done|]. cbn [run_calls].
    assert (Hc : (run_call m c w).2 = w) by (by destruct c, m).
    destruct (run_call m c w) as [r w1]. cbn [snd] in Hc. subst w1.
    by destruct (run_calls m rest w).
  - induction cs as [|c rest IH]; [done|]. cbn [run_calls map].
    assert (Hc : run_call m c w =
              (match c with
               | CallName =>
                   ReplyName (match m with
                              | OfSES _ => "ses"
                              | OfPinpoint _ => "pinpoint"
                              end)
               | CallFlush | CallClose => ReplyError None
               end, w)) by (by destruct c, m).
    rewrite Hc. destruct (run_calls m rest w) as [rs w2]. cbn [fst] in *.
    by rewrite IH.
  - by destruct m.
  - by destruct m.
  - by destruct m.
Qed.

(** ** The two scenarios of the specification *)

Example sms_scenario :
  let p := pinpointMessenger.mk
             (pinpointCfg.mk "A1" "" "" "" "TRANSACTIONAL" "S" false)
             (pinpoint.New session0) (mkLogger 0) in
  let msg := Message.mk "" [] "" "" (Slice 2 0 2 2) NilSlice None None
               subscriber0 None in
  let run := @pinpointMessenger_Push
               (scripted (inr []) (inr (ses.mkOutput None)) (inr sms_results)
                  (inr pinpointCfg.zero)) p msg world0 in
  run.1 = Returned ("", None) ∧
  calls_made world0 run.2 =
    [EvSendMessages (pinpoint.New session0)
       (pinpoint.mkInput (Some "A1")
          (Some (pinpoint.mkRequest
             {[ "+15550001111" := pinpoint.mkAddress (Some "SMS") ]}
             (Some (pinpoint.mkDirect (Some (pinpoint.mkSMS
                (Some "hi") (Some "TRANSACTIONAL") (Some "S"))))))))].
Proof. vm_compute. split; reflexivity. Qed.

Example email_scenario :
  let s := sesMessenger.mk (sesCfg.mk "" "" "" false) (ses.New session0)
             (mkLogger 0) in
  let run := @sesMessenger_Push
               (scripted (inr (bytes_of "MIME-Version: 1.0"))
                  (inr (ses.mkOutput (Some "0100-id")))
                  (inr sms_results) (inr pinpointCfg.zero))
               s msg_html world0 in
  run.1 = Returned ("0100-id", None) ∧
  build_email msg_html world0 =
    (smtppool.mkEmail "x@y.com" ["a@b.com"] "hello" "x@y.com" None None
       NilSlice (Slice 1 0 9 9), world0) ∧
  read_slice (mem world0) (Slice 1 0 9 9) = bytes_of "<p>hi</p>" ∧
  calls_made world0 run.2 =
    [EvSendRawEmail (ses.New session0)
       (ses.mkInput (Some "x@y.com") [Some "a@b.com"]
          (Some (ses.mkRawMessage (bytes_of "MIME-Version: 1.0"))))].
Proof. vm_compute. repeat split; reflexivity. Qed.

(** * Further properties of the adapters

    ** The e-mail Push: transport, log and heap *)

Lemma calls_made_app (w w' : World) (evs : list Event) :
  trace w' = trace w ++ evs → calls_made w w' = evs.
Proof.
  intros E. unfold calls_made. rewrite E. by rewrite drop_app_length.
Qed.

(** One attachment allocates exactly one array, the fresh one, and
    writes nowhere else, whatever the content slice looks like. *)
Lemma convert_attachment_mem (f : Attachment.t) (w : World) :
  ∃ data,
    mem (convert_attachment f w).2 = <[fresh (dom (mem w)) := data]> (mem w).
Proof.
  unfold convert_attachment, make_bytes, copy. cbn.
  rewrite lookup_insert_eq. cbn. rewrite insert_insert_eq. by eexists.
Qed.

Lemma convert_loop_mem (atts : list Attachment.t) :
  ∀ (files : list smtppool.Attachment) (w : World),
    (∀ l, l ∈ dom (mem w) →
          mem (convert_loop atts files w).2 !! l = mem w !! l) ∧
    size (dom (mem (convert_loop atts files w).2)) =
      size (dom (mem w)) + length atts.
Proof.
  induction atts as [|f rest IH]; intros files w.
  - cbn. split; [done | lia].
  - rewrite convert_loop_cons.
    destruct (convert_attachment_mem f w) as [data Hmem].
    destruct (IH (files ++ [(convert_attachment f w).1])
                (convert_attachment f w).2) as [Hkeep Hsize].
    assert (Hfresh : fresh (dom (mem w)) ∉ dom (mem w)) by apply is_fresh.
    split.
    + intros l Hl. rewrite Hkeep.
      * rewrite Hmem. rewrite lookup_insert_ne; [done|]. by intros <-.
      * rewrite Hmem, dom_insert_L. set_solver.
    + rewrite Hsize, Hmem, dom_insert_L.
      rewrite size_union by set_solver. rewrite size_singleton. cbn. lia.
Qed.

Lemma sesMessenger_Push_world `{C : Collaborators} (s : sesMessenger.t)
    (msg : Message.t) (w : World) :
  mem (sesMessenger_Push s msg w).2 = mem (build_email msg w).2 ∧
  hdrs (sesMessenger_Push s msg w).2 = hdrs (build_email msg w).2.
Proof.
  unfold sesMessenger_Push.
  destruct (build_email msg w) as [email w1]. cbn [snd].
  destruct (email_Bytes email w1) as [e|raw]; [done|].
  destruct (ses_SendRawEmail _ _ _) as [e|out]; [done|].
  destruct (ses.MessageId out); by destruct (sesCfg.Log _).
Qed.

Lemma build_email_hdrs (msg : Message.t) (w : World) :
  hdrs (build_email msg w).2 = hdrs w.
Proof.
  destruct (build_email_attachments msg w) as [_ ->].
  unfold convert_attachments.
  destruct (Message.Attachments msg) as [atts|]; [|done].
  pose proof (convert_loop_trace atts [] w) as [_ Hh].
  by destruct (convert_loop atts [] w).
Qed.

(** X1: the e-mail Push, whatever the collaborators answer and whatever
    the message holds, leaves every array that existed before the call
    with the bytes it had, and leaves the header maps as they were. *)
Theorem email_push_preserves_storage `{C : Collaborators} (s : sesMessenger.t)
    (msg : Message.t) (w : World) :
  (∀ l bs, mem w !! l = Some bs →
           mem (sesMessenger_Push s msg w).2 !! l = Some bs) ∧
  hdrs (sesMessenger_Push s msg w).2 = hdrs w.
Proof.
  destruct (sesMessenger_Push_world s msg w) as [-> ->].
  split; [|apply build_email_hdrs].
  intros l bs Hl.
  destruct (build_email_attachments msg w) as [_ ->].
  unfold convert_attachments.
  destruct (Message.Attachments msg) as [atts|]; [|done].
  destruct (convert_loop_mem atts [] w) as [Hkeep _].
  destruct (convert_loop atts [] w) as [files w1]. cbn [snd] in *.
  rewrite Hkeep; [done|]. apply elem_of_dom. by rewrite Hl.
Qed.

(** X2: the e-mail Push allocates one array per attachment of the
    message and nothing else: none when the attachments are nil. *)
Theorem email_push_allocations `{C : Collaborators} (s : sesMessenger.t)
    (msg : Message.t) (w : World) :
  size (dom (mem (sesMessenger_Push s msg w).2)) =
    size (dom (mem w)) +
    match Message.Attachments msg with
    | Some atts => length atts
    | None => 0
    end.
Proof.
  destruct (sesMessenger_Push_world s msg w) as [-> _].
  destruct (build_email_attachments msg w) as [_ ->].
  unfold convert_attachments.
  destruct (Message.Attachments msg) as [atts|]; [|cbn; lia].
  destruct (convert_loop_mem atts [] w) as [_ Hsize].
  by destruct (convert_loop atts [] w).
Qed.

(** X3: when the envelope serializes and SendRawEmail answers with an
    error, the e-mail Push returns the empty identifier with that error
    as it is; the call made exactly one SendRawEmail, from the resolved
    From address to the subscriber's address with the serialized bytes,
    and wrote no log line, logging on or off. *)
Theorem email_push_transport_error `{C : Collaborators} (s : sesMessenger.t)
    (msg : Message.t) (w : World) (raw : list byte) (err : error) :
  email_Bytes (build_email msg w).1 (build_email msg w).2 = inr raw →
  ses_SendRawEmail (sesMessenger.client s)
    (raw_email_input (build_email msg w).1 msg raw) (build_email msg w).2
    = inl err →
  (sesMessenger_Push s msg w).1 = Returned ("", Some err) ∧
  calls_made w (sesMessenger_Push s msg w).2 =
    [EvSendRawEmail (sesMessenger.client s)
       (ses.mkInput (Some (resolve_from msg))
          [Some (models.Email (Message.Subscriber msg))]
          (Some (ses.mkRawMessage raw)))].
Proof.
  intros Hmime Hsend. unfold sesMessenger_Push.
  pose proof (build_email_trace msg w) as Htrace.
  destruct (build_email_from msg w) as (Hfrom & _).
  destruct (build_email msg w) as [email w1]. cbn [fst snd] in *.
  rewrite Hmime, Hsend. cbn [fst snd]. split; [done|].
  unfold raw_email_input. rewrite Hfrom. by apply calls_made_emit.
Qed.

Lemma email_push_transport_error_witness :
  (@sesMessenger_Push
     (scripted (inr (bytes_of "MIME-Version: 1.0")) (inl transport_error)
        (inr sms_results) (inr pinpointCfg.zero))
     ses0 msg_plain world0).1 = Returned ("", Some transport_error).
Proof.
  apply (@email_push_transport_error
     (scripted (inr (bytes_of "MIME-Version: 1.0")) (inl transport_error)
        (inr sms_results) (inr pinpointCfg.zero))
     ses0 msg_plain world0 (bytes_of "MIME-Version: 1.0") transport_error).
  - reflexivity.
  - reflexivity.
Defined.



(** X5: whenever Push returns an error, on either adapter, the
    identifier it returns with it is the empty string. *)
Theorem push_error_has_empty_identifier `{C : Collaborators} (m : Messenger)
    (msg : Message.t) (w : World) (id : string) (err : error) :
  (Push m msg w).1 = Returned (id, Some err) → id = "".
Proof.
  destruct m as [s|p]; cbn [Push].
  - unfold sesMessenger_Push.
    destruct (build_email msg w) as [email w1].
    destruct (email_Bytes email w1) as [e|raw]; cbn [fst].
    { by intros [= <- _]. }
    destruct (ses_SendRawEmail _ _ _) as [e|out]; cbn [fst].
    { by intros [= <- _]. }
    destruct (ses.MessageId out); cbn [fst]; discriminate.
  - unfold pinpointMessenger_Push.
    destruct (assert_string _) as [phone [|]]; cbn [negb fst].
    + destruct (pinpoint_SendMessages _ _ _) as [e|out]; cbn [fst].
      { by intros [= <- _]. }
      destruct (pinpointCfg.Log _); [|discriminate].
      destruct (pinpoint.Response out); discriminate.
    + by intros [= <- _].
Qed.

Lemma push_error_has_empty_identifier_witness :
  ∃ id,
    (@Push
       (scripted (inl mime_error) (inr (ses.mkOutput (Some "0100-id")))
          (inr sms_results) (inr pinpointCfg.zero))
       (OfSES ses0) msg_html world0).1 = Returned (id, Some mime_error) ∧
    id = "".
Proof.
  exists "". split; [reflexivity|].
  apply (@push_error_has_empty_identifier
     (scripted (inl mime_error) (inr (ses.mkOutput (Some "0100-id")))
        (inr sms_results) (inr pinpointCfg.zero))
     (OfSES ses0) msg_html world0 "" mime_error).
  reflexivity.
Defined.

(** X6: the SMS Push never returns anything but the empty string as the
    identifier, with or without an error. *)
Theorem sms_push_identifier_always_empty `{C : Collaborators}
    (p : pinpointMessenger.t) (msg : Message.t) (w : World)
    (id : string) (e : option error) :
  (pinpointMessenger_Push p msg w).1 = Returned (id, e) → id = "".
Proof.
  unfold pinpointMessenger_Push.
  destruct (assert_string _) as [phone [|]]; cbn [negb fst].
  - destruct (pinpoint_SendMessages _ _ _) as [err|out]; cbn [fst].
    { by intros [= <- _]. }
    destruct (pinpointCfg.Log _); [|by intros [= <- _]].
    destruct (pinpoint.Response out); [by intros [= <- _] | discriminate].
  - by intros [= <- _].
Qed.

Lemma sms_push_identifier_always_empty_witness :
  ∃ id,
    (@pinpointMessenger_Push
       (scripted (inr []) (inr (ses.mkOutput None)) (inr sms_results)
          (inr pinpointCfg.zero))
       pinpoint0 msg_html world0).1 = Returned (id, None) ∧
    id = "".
Proof.
  exists "". split; [reflexivity|].
  apply (@sms_push_identifier_always_empty
     (scripted (inr []) (inr (ses.mkOutput None)) (inr sms_results)
        (inr pinpointCfg.zero))
     pinpoint0 msg_html world0 "" None).
  reflexivity.
Defined.



(** X8: a message whose attachments are nil gets an envelope whose
    attachments are nil, one whose attachments are an empty slice gets an
    empty slice that is not nil; in both cases building the envelope
    leaves the world as it was. *)
Theorem build_email_no_attachments (msg : Message.t) (w : World) :
  Message.Attachments msg = None ∨ Message.Attachments msg = Some [] →
  (build_email msg w).2 = w ∧
  smtppool.Attachments (build_email msg w).1 =
    match Message.Attachments msg with
    | None => None
    | Some _ => Some []
    end.
Proof.
  intros Hatts.
  destruct (build_email_attachments msg w) as [-> ->].
  by destruct Hatts as [-> | ->].
Qed.

Lemma build_email_no_attachments_witness :
  (build_email msg_html world0).2 = world0 ∧
  smtppool.Attachments (build_email msg_html world0).1 = None.
Proof.
  apply (build_email_no_attachments msg_html world0). left. reflexivity.
Defined.

(** ** The SMS Push: transport, log and heap *)

Lemma log_results_fold `{C : Collaborators} (l : Logger)
    (entries : list (string * option pinpoint.MessageResult)) :
  ∀ w,
    let w' := foldl (λ w' '(phone, result),
                 log_info l "successfully sent sms"
                   [("phone", phone); ("result", fmt_Sprintf_sms result)] w')
               w entries in
    trace w' = trace w ++ map (sms_log_line l) entries ∧
    mem w' = mem w ∧ hdrs w' = hdrs w.
Proof.
  induction entries as [|[phone result] rest IH]; intros w; cbn.
  - by rewrite app_nil_r.
  - destruct (IH (log_info l "successfully sent sms"
                    [("phone", phone); ("result", fmt_Sprintf_sms result)] w))
      as (Ht & Hm & Hh).
    cbn in Ht, Hm, Hh. rewrite Ht, Hm, Hh. cbn.
    by rewrite <- app_assoc.
Qed.

Lemma log_results_world `{C : Collaborators} (l : Logger)
    (results : gmap string (option pinpoint.MessageResult)) (w : World) :
  trace (log_results l results w) =
    trace w ++ map (sms_log_line l) (map_to_list results) ∧
  mem (log_results l results w) = mem w ∧
  hdrs (log_results l results w) = hdrs w.
Proof. apply (log_results_fold l (map_to_list results) w). Qed.

(** X9: the SMS Push reads the heap and never writes it: in every case,
    error, success or panic, the arrays and the header maps of the world
    after the call are those of the world before. *)
Theorem sms_push_preserves_heap `{C : Collaborators} (p : pinpointMessenger.t)
    (msg : Message.t) (w : World) :
  mem (pinpointMessenger_Push p msg w).2 = mem w ∧
  hdrs (pinpointMessenger_Push p msg w).2 = hdrs w.
Proof.
  unfold pinpointMessenger_Push.
  destruct (assert_string _) as [phone [|]]; cbn [negb]; [|done].
  destruct (pinpoint_SendMessages _ _ _) as [err|out]; [done|].
  destruct (pinpointCfg.Log _); [|done].
  destruct (pinpoint.Response out) as [r|]; [|done]. cbn [snd].
  destruct (log_results_world (pinpointMessenger.logger p) (pinpoint.Result r)
              (emit (EvSendMessages (pinpointMessenger.client p)
                 (sms_payload p phone
                    (string_of_list_byte
                       (read_slice (mem w) (Message.Body msg))))) w))
    as (_ & Hm & Hh).
  by rewrite Hm, Hh.
Qed.

(** X10: when the phone attribute is a string and SendMessages answers
    with an error, the SMS Push returns the empty identifier with that
    error as it is; the call made exactly one SendMessages and wrote no
    log line, logging on or off. *)
Theorem sms_push_transport_error `{C : Collaborators} (p : pinpointMessenger.t)
    (msg : Message.t) (w : World) (phone : string) (err : error) :
  models.Attribs (Message.Subscriber msg) !! "phone" = Some (anyString phone) →
  pinpoint_SendMessages (pinpointMessenger.client p)
    (sms_payload p phone
       (string_of_list_byte (read_slice (mem w) (Message.Body msg)))) w
    = inl err →
  (pinpointMessenger_Push p msg w).1 = Returned ("", Some err) ∧
  calls_made w (pinpointMessenger_Push p msg w).2 =
    [EvSendMessages (pinpointMessenger.client p)
       (sms_payload p phone
          (string_of_list_byte (read_slice (mem w) (Message.Body msg))))].
Proof.
  intros Hphone Hsend. unfold pinpointMessenger_Push.
  rewrite Hphone. cbn. rewrite Hsend. split; [done|].
  by apply calls_made_emit.
Qed.

Lemma sms_push_transport_error_witness :
  (@pinpointMessenger_Push
     (scripted (inr []) (inr (ses.mkOutput None)) (inl transport_error)
        (inr pinpointCfg.zero))
     pinpoint0 msg_html world0).1 = Returned ("", Some transport_error).
Proof.
  apply (@sms_push_transport_error
     (scripted (inr []) (inr (ses.mkOutput None)) (inl transport_error)
        (inr pinpointCfg.zero))
     pinpoint0 msg_html world0 "+15550001111" transport_error).
  - reflexivity.
  - reflexivity.
Defined.



(** X12: when the phone attribute is a string, whatever SendMessages
    answers, the call issues SendMessages exactly once, first, and every
    other event of the call is a log line; the request names the
    adapter's application, has exactly one address, the phone number
    bound to the channel SMS, and carries the message body as a string
    with the adapter's message type and sender id. *)
Theorem sms_push_single_request `{C : Collaborators} (p : pinpointMessenger.t)
    (msg : Message.t) (w : World) (phone : string) :
  models.Attribs (Message.Subscriber msg) !! "phone" = Some (anyString phone) →
  ∃ req rest,
    calls_made w (pinpointMessenger_Push p msg w).2 =
      EvSendMessages (pinpointMessenger.client p)
        (pinpoint.mkInput
           (Some (pinpointCfg.AppID (pinpointMessenger.cfg p))) (Some req))
      :: rest ∧
    forallb is_log rest = true ∧
    map_to_list (pinpoint.Addresses req) =
      [(phone, pinpoint.mkAddress (Some "SMS"))] ∧
    pinpoint.MessageConfiguration req =
      Some (pinpoint.mkDirect (Some (pinpoint.mkSMS
        (Some (string_of_list_byte (read_slice (mem w) (Message.Body msg))))
        (Some (pinpointCfg.MessageType (pinpointMessenger.cfg p)))
        (Some (pinpointCfg.SenderID (pinpointMessenger.cfg p)))))).
Proof.
  intros Hphone.
  set (body := string_of_list_byte (read_slice (mem w) (Message.Body msg))).
  exists (pinpoint.mkRequest
            {[ phone := pinpoint.mkAddress (Some channelType) ]}
            (Some (pinpoint.mkDirect (Some (pinpoint.mkSMS
               (Some body)
               (Some (pinpointCfg.MessageType (pinpointMessenger.cfg p)))
               (Some (pinpointCfg.SenderID (pinpointMessenger.cfg p)))))))).
  assert (Haddr : map_to_list
            ({[ phone := pinpoint.mkAddress (Some channelType) ]}
               : gmap string pinpoint.AddressConfiguration)
          = [(phone, pinpoint.mkAddress (Some "SMS"))])
    by apply map_to_list_singleton.
  unfold pinpointMessenger_Push. rewrite Hphone. cbn [assert_string negb].
  fold body. change (sms_payload p phone body) with
    (pinpoint.mkInput
       (Some (pinpointCfg.AppID (pinpointMessenger.cfg p)))
       (Some (pinpoint.mkRequest
          {[ phone := pinpoint.mkAddress (Some channelType) ]}
          (Some (pinpoint.mkDirect (Some (pinpoint.mkSMS
             (Some body)
             (Some (pinpointCfg.MessageType (pinpointMessenger.cfg p)))
             (Some (pinpointCfg.SenderID (pinpointMessenger.cfg p)))))))))).
  destruct (pinpoint_SendMessages _ _ _) as [err|out].
  { exists []. cbn [snd]. split; [by apply calls_made_emit | done]. }
  destruct (pinpointCfg.Log _).
  - destruct (pinpoint.Response out) as [r|].
    + exists (map (sms_log_line (pinpointMessenger.logger p))
                (map_to_list (pinpoint.Result r))).
      cbn [snd]. split; [|split; [|done]].
      * apply calls_made_app.
        match goal with
        | |- trace (log_results ?l ?res ?w0) = _ =>
            destruct (log_results_world l res w0) as (Ht & _)
        end.
        rewrite Ht. cbn. by rewrite <- app_assoc.
      * apply forallb_forall. intros e (entry & <- & _)%in_map_iff. done.
    + exists []. cbn [snd]. split; [by apply calls_made_emit | done].
  - exists []. cbn [snd]. split; [by apply calls_made_emit | done].
Qed.

Lemma sms_push_single_request_witness :
  ∃ req rest,
    calls_made world0
      (@pinpointMessenger_Push
         (scripted (inr []) (inr (ses.mkOutput None)) (inr sms_results)
            (inr pinpointCfg.zero))
         pinpoint0 msg_html world0).2 =
      EvSendMessages (pinpoint.New session0)
        (pinpoint.mkInput (Some "A1") (Some req)) :: rest ∧
    forallb is_log rest = true ∧
    map_to_list (pinpoint.Addresses req) =
      [("+15550001111", pinpoint.mkAddress (Some "SMS"))].
Proof.
  destruct (@sms_push_single_request
     (scripted (inr []) (inr (ses.mkOutput None)) (inr sms_results)
        (inr pinpointCfg.zero))
     pinpoint0 msg_html world0 "+15550001111")
    as (req & rest & Hcalls & Hlog & Haddr & _).
  - reflexivity.
  - exists req, rest. split; [exact Hcalls|]. split; [exact Hlog | exact Haddr].
Defined.

(** X13: the SMS Push looks at the phone attribute and at the bytes of
    the body, and at nothing else of the message: two messages that
    agree on these get the same result and the same world. *)
Theorem sms_push_reads_phone_and_body `{C : Collaborators}
    (p : pinpointMessenger.t) (msg1 msg2 : Message.t) (w : World) :
  models.Attribs (Message.Subscriber msg1) !! "phone" =
    models.Attribs (Message.Subscriber msg2) !! "phone" →
  read_slice (mem w) (Message.Body msg1) =
    read_slice (mem w) (Message.Body msg2) →
  pinpointMessenger_Push p msg1 w = pinpointMessenger_Push p msg2 w.
Proof.
  intros Hphone Hbody. unfold pinpointMessenger_Push.
  by rewrite Hphone, Hbody.
Qed.

Lemma sms_push_reads_phone_and_body_witness :
  @pinpointMessenger_Push
     (scripted (inr []) (inr (ses.mkOutput None)) (inr sms_results)
        (inr pinpointCfg.zero))
     pinpoint0 msg_html world0 =
  @pinpointMessenger_Push
     (scripted (inr []) (inr (ses.mkOutput None)) (inr sms_results)
        (inr pinpointCfg.zero))
     pinpoint0 msg_attach world0.
Proof.
  apply (@sms_push_reads_phone_and_body
     (scripted (inr []) (inr (ses.mkOutput None)) (inr sms_results)
        (inr pinpointCfg.zero))
     pinpoint0 msg_html msg_attach world0).
  - reflexivity.
  - reflexivity.
Defined.

(** ** The constructors *)

(** X14: the configuration both constructors build always asks for three
    retries; it carries static credentials exactly when the access key
    and the secret key are both non-empty (one key alone is ignored), made
    of these two keys and an empty token; it carries a region exactly when
    the configured region is non-empty. *)
Theorem aws_config_fields (accessKey secretKey region : string) :
  aws.MaxRetries (aws_config accessKey secretKey region) = Some 3 ∧
  (aws.Creds (aws_config accessKey secretKey region) = None ↔
     accessKey = "" ∨ secretKey = "") ∧
  (∀ c, aws.Creds (aws_config accessKey secretKey region) = Some c →
        c = aws.NewStaticCredentials accessKey secretKey "") ∧
  (aws.Region (aws_config accessKey secretKey region) = None ↔ region = "") ∧
  (∀ r, aws.Region (aws_config accessKey secretKey region) = Some r →
        r = region).
Proof.
  unfold aws_config. cbn.
  split; [done|]. split; [|split; [|split]].
  - do 2 case_bool_decide; cbn; split; try done; tauto.
  - intros c. do 2 case_bool_decide; cbn; try discriminate.
    by intros [= <-].
  - case_bool_decide; by split.
  - intros r. case_bool_decide; [by intros [= <-] | discriminate].
Qed.

Lemma calls_made_two (w : World) (e1 e2 : Event) :
  calls_made w (emit e2 (emit e1 w)) = [e1; e2].
Proof. apply calls_made_app. cbn. by rewrite <- app_assoc. Qed.

(** X15: when the blob does not parse, NewPinpoint returns a nil
    Messenger with the decoder's error as it is, and the world is as
    before: no session is created and no identity check is made. *)
Theorem NewPinpoint_parse_error `{C : Collaborators} (cfg : list byte)
    (l : Logger) (w : World) (err : error) :
  json_Unmarshal_pinpointCfg cfg pinpointCfg.zero = inl err →
  NewPinpoint cfg l w = (Returned (None, Some err), w).
Proof. intros Hparse. unfold NewPinpoint. by rewrite Hparse. Qed.

Lemma NewPinpoint_parse_error_witness :
  @NewPinpoint
    (scripted_ctor (inl json_error) (inl json_error)
       (λ c, inr (aws.mkSession c)) None)
    (bytes_of "{") (mkLogger 0) world0
  = (Returned (None, Some json_error), world0).
Proof.
  apply (@NewPinpoint_parse_error
    (scripted_ctor (inl json_error) (inl json_error)
       (λ c, inr (aws.mkSession c)) None)
    (bytes_of "{") (mkLogger 0) world0 json_error).
  reflexivity.
Defined.

(** X16: when the blob does not parse, NewAWSSES returns a nil Messenger
    with the decoder's error as it is, and the world is as before. *)
Theorem NewAWSSES_parse_error `{C : Collaborators} (cfg : list byte)
    (l : Logger) (w : World) (err : error) :
  json_Unmarshal_sesCfg cfg sesCfg.zero = inl err →
  NewAWSSES cfg l w = (Returned (None, Some err), w).
Proof. intros Hparse. unfold NewAWSSES. by rewrite Hparse. Qed.

Lemma NewAWSSES_parse_error_witness :
  @NewAWSSES
    (scripted_ctor (inl json_error) (inl json_error)
       (λ c, inr (aws.mkSession c)) None)
    (bytes_of "{") (mkLogger 0) world0
  = (Returned (None, Some json_error), world0).
Proof.
  apply (@NewAWSSES_parse_error
    (scripted_ctor (inl json_error) (inl json_error)
       (λ c, inr (aws.mkSession c)) None)
    (bytes_of "{") (mkLogger 0) world0 json_error).
  reflexivity.
Defined.

(** X17: when the blob parses with an application identifier, the
    session is created and the identity check answers with an error,
    NewPinpoint returns a nil Messenger with that error as it is, after
    exactly two calls: the creation of the session from the configuration
    built from the parsed keys and region, then the identity check on
    that session. *)
Theorem NewPinpoint_credential_error `{C : Collaborators} (cfg : list byte)
    (l : Logger) (w : World) (c : pinpointCfg.t) (sess : aws.Session)
    (err : error) :
  let config := aws_config (pinpointCfg.AccessKey c) (pinpointCfg.SecretKey c)
                  (pinpointCfg.Region c) in
  json_Unmarshal_pinpointCfg cfg pinpointCfg.zero = inr c →
  pinpointCfg.AppID c ≠ "" →
  session_NewSession config w = inr sess →
  sts_GetCallerIdentity sess (emit (EvNewSession config) w) = Some err →
  (NewPinpoint cfg l w).1 = Returned (None, Some err) ∧
  calls_made w (NewPinpoint cfg l w).2 =
    [EvNewSession config; EvGetCallerIdentity sess].
Proof.
  intros config Hparse Hid Hsess Hsts.
  unfold NewPinpoint, must_new_session, checkCredentials.
  rewrite Hparse. rewrite bool_decide_eq_false_2 by done.
  fold config. rewrite Hsess, Hsts. cbn [fst snd].
  split; [done | apply calls_made_two].
Qed.

Lemma NewPinpoint_credential_error_witness :
  (@NewPinpoint
     (scripted_ctor (inr sescfg_keys) (inr smscfg_keys)
        (λ c, inr (aws.mkSession c)) (Some identity_error))
     (bytes_of "{}") (mkLogger 0) world0).1
  = Returned (None, Some identity_error).
Proof.
  apply (@NewPinpoint_credential_error
     (scripted_ctor (inr sescfg_keys) (inr smscfg_keys)
        (λ c, inr (aws.mkSession c)) (Some identity_error))
     (bytes_of "{}") (mkLogger 0) world0 smscfg_keys
     (aws.mkSession config_keys) identity_error).
  - reflexivity.
  - discriminate.
  - reflexivity.
  - reflexivity.
Defined.

(** X18: the same for NewAWSSES, which asks for no application
    identifier: when the blob parses, the session is created and the
    identity check answers with an error, it returns a nil Messenger with
    that error after the creation of the session and the identity
    check. *)
Theorem NewAWSSES_credential_error `{C : Collaborators} (cfg : list byte)
    (l : Logger) (w : World) (c : sesCfg.t) (sess : aws.Session)
    (err : error) :
  let config := aws_config (sesCfg.AccessKey c) (sesCfg.SecretKey c)
                  (sesCfg.Region c) in
  json_Unmarshal_sesCfg cfg sesCfg.zero = inr c →
  session_NewSession config w = inr sess →
  sts_GetCallerIdentity sess (emit (EvNewSession config) w) = Some err →
  (NewAWSSES cfg l w).1 = Returned (None, Some err) ∧
  calls_made w (NewAWSSES cfg l w).2 =
    [EvNewSession config; EvGetCallerIdentity sess].
Proof.
  intros config Hparse Hsess Hsts.
  unfold NewAWSSES, must_new_session, checkCredentials.
  rewrite Hparse. fold config. rewrite Hsess, Hsts. cbn [fst snd].
  split; [done | apply calls_made_two].
Qed.

Lemma NewAWSSES_credential_error_witness :
  (@NewAWSSES
     (scripted_ctor (inr sescfg_keys) (inr smscfg_keys)
        (λ c, inr (aws.mkSession c)) (Some identity_error))
     (bytes_of "{}") (mkLogger 0) world0).1
  = Returned (None, Some identity_error).
Proof.
  apply (@NewAWSSES_credential_error
     (scripted_ctor (inr sescfg_keys) (inr smscfg_keys)
        (λ c, inr (aws.mkSession c)) (Some identity_error))
     (bytes_of "{}") (mkLogger 0) world0 sescfg_keys
     (aws.mkSession config_keys) identity_error).
  - reflexivity.
  - reflexivity.
  - reflexivity.
Defined.

(** X19: when the creation of the session fails, either constructor
    panics (session.Must) instead of returning an error; the session
    creation is the only call made, the identity check is not reached. *)
Theorem constructors_session_failure_panics `{C : Collaborators}
    (config : aws.Config) (w : World) (err : error) :
  session_NewSession config w = inl err →
  (∀ cfg l c,
     json_Unmarshal_pinpointCfg cfg pinpointCfg.zero = inr c →
     pinpointCfg.AppID c ≠ "" →
     aws_config (pinpointCfg.AccessKey c) (pinpointCfg.SecretKey c)
       (pinpointCfg.Region c) = config →
     (NewPinpoint cfg l w).1 = Panicked "session.Must" ∧
     calls_made w (NewPinpoint cfg l w).2 = [EvNewSession config]) ∧
  (∀ cfg l c,
     json_Unmarshal_sesCfg cfg sesCfg.zero = inr c →
     aws_config (sesCfg.AccessKey c) (sesCfg.SecretKey c) (sesCfg.Region c)
       = config →
     (NewAWSSES cfg l w).1 = Panicked "session.Must" ∧
     calls_made w (NewAWSSES cfg l w).2 = [EvNewSession config]).
Proof.
  intros Hsess. split.
  - intros cfg l c Hparse Hid Hcfg.
    unfold NewPinpoint, must_new_session.
    rewrite Hparse. rewrite bool_decide_eq_false_2 by done.
    rewrite Hcfg, Hsess. cbn [fst snd].
    split; [done | by apply calls_made_emit].
  - intros cfg l c Hparse Hcfg.
    unfold NewAWSSES, must_new_session.
    rewrite Hparse, Hcfg, Hsess. cbn [fst snd].
    split; [done | by apply calls_made_emit].
Qed.

Lemma constructors_session_failure_panics_witness :
  (@NewPinpoint
     (scripted_ctor (inr sescfg_keys) (inr smscfg_keys)
        (λ _, inl identity_error) None)
     (bytes_of "{}") (mkLogger 0) world0).1 = Panicked "session.Must" ∧
  (@NewAWSSES
     (scripted_ctor (inr sescfg_keys) (inr smscfg_keys)
        (λ _, inl identity_error) None)
     (bytes_of "{}") (mkLogger 0) world0).1 = Panicked "session.Must".
Proof.
  destruct (@constructors_session_failure_panics
     (scripted_ctor (inr sescfg_keys) (inr smscfg_keys)
        (λ _, inl identity_error) None)
     config_keys world0 identity_error eq_refl) as [Hsms Hses].
  split.
  - apply (Hsms (bytes_of "{}") (mkLogger 0) smscfg_keys).
    + reflexivity.
    + discriminate.
    + reflexivity.
  - apply (Hses (bytes_of "{}") (mkLogger 0) sescfg_keys).
    + reflexivity.
    + reflexivity.
Defined.

(** Every way NewPinpoint can hand back an adapter. *)
Lemma NewPinpoint_inv `{C : Collaborators} (cfg : list byte) (l : Logger)
    (w : World) (m : Messenger) (e : option error) :
  (NewPinpoint cfg l w).1 = Returned (Some m, e) →
  ∃ c sess,
    json_Unmarshal_pinpointCfg cfg pinpointCfg.zero = inr c ∧
    pinpointCfg.AppID c ≠ "" ∧
    session_NewSession
      (aws_config (pinpointCfg.AccessKey c) (pinpointCfg.SecretKey c)
         (pinpointCfg.Region c)) w = inr sess ∧
    sts_GetCallerIdentity sess
      (emit (EvNewSession
         (aws_config (pinpointCfg.AccessKey c) (pinpointCfg.SecretKey c)
            (pinpointCfg.Region c))) w) = None ∧
    e = None ∧
    m = OfPinpoint (pinpointMessenger.mk c (pinpoint.New sess) l) ∧
    (NewPinpoint cfg l w).2 =
      emit (EvGetCallerIdentity sess)
        (emit (EvNewSession
           (aws_config (pinpointCfg.AccessKey c) (pinpointCfg.SecretKey c)
              (pinpointCfg.Region c))) w).
Proof.
  unfold NewPinpoint, must_new_session, checkCredentials.
  destruct (json_Unmarshal_pinpointCfg cfg pinpointCfg.zero) as [err|c];
    [discriminate|].
  case_bool_decide as Hid; [discriminate|].
  destruct (session_NewSession _ w) as [err|sess] eqn:Hsess; [discriminate|].
  destruct (sts_GetCallerIdentity sess _) as [err|] eqn:Hsts; [discriminate|].
  cbn [fst snd]. intros [= <- <-]. by exists c, sess.
Qed.

Lemma NewAWSSES_inv `{C : Collaborators} (cfg : list byte) (l : Logger)
    (w : World) (m : Messenger) (e : option error) :
  (NewAWSSES cfg l w).1 = Returned (Some m, e) →
  ∃ c sess,
    json_Unmarshal_sesCfg cfg sesCfg.zero = inr c ∧
    session_NewSession
      (aws_config (sesCfg.AccessKey c) (sesCfg.SecretKey c)
         (sesCfg.Region c)) w = inr sess ∧
    sts_GetCallerIdentity sess
      (emit (EvNewSession
         (aws_config (sesCfg.AccessKey c) (sesCfg.SecretKey c)
            (sesCfg.Region c))) w) = None ∧
    e = None ∧
    m = OfSES (sesMessenger.mk c (ses.New sess) l) ∧
    (NewAWSSES cfg l w).2 =
      emit (EvGetCallerIdentity sess)
        (emit (EvNewSession
           (aws_config (sesCfg.AccessKey c) (sesCfg.SecretKey c)
              (sesCfg.Region c))) w).
Proof.
  unfold NewAWSSES, must_new_session, checkCredentials.
  destruct (json_Unmarshal_sesCfg cfg sesCfg.zero) as [err|c];
    [discriminate|].
  destruct (session_NewSession _ w) as [err|sess] eqn:Hsess; [discriminate|].
  destruct (sts_GetCallerIdentity sess _) as [err|] eqn:Hsts; [discriminate|].
  cbn [fst snd]. intros [= <- <-]. by exists c, sess.
Qed.

(** X20: NewPinpoint hands back an adapter only after the identity check
    has passed: whenever it returns a Messenger that is not nil, the
    error is nil, the blob parsed to a configuration with a non-empty
    application identifier, the session factory answered the
    configuration built from the parsed keys and region with a session,
    the identity check on that very session answered without error, the
    calls made are the creation of the session and that identity check,
    and the Messenger is the SMS adapter holding the parsed configuration,
    a client on that same session and the logger passed in; its Name is
    "pinpoint". *)
Theorem NewPinpoint_adapter_is_validated `{C : Collaborators}
    (cfg : list byte) (l : Logger) (w : World) (m : Messenger)
    (e : option error) :
  (NewPinpoint cfg l w).1 = Returned (Some m, e) →
  e = None ∧ Name m = "pinpoint" ∧
  ∃ c sess,
    json_Unmarshal_pinpointCfg cfg pinpointCfg.zero = inr c ∧
    pinpointCfg.AppID c ≠ "" ∧
    session_NewSession
      (aws_config (pinpointCfg.AccessKey c) (pinpointCfg.SecretKey c)
         (pinpointCfg.Region c)) w = inr sess ∧
    sts_GetCallerIdentity sess
      (emit (EvNewSession
         (aws_config (pinpointCfg.AccessKey c) (pinpointCfg.SecretKey c)
            (pinpointCfg.Region c))) w) = None ∧
    m = OfPinpoint (pinpointMessenger.mk c (pinpoint.New sess) l) ∧
    calls_made w (NewPinpoint cfg l w).2 =
      [EvNewSession
         (aws_config (pinpointCfg.AccessKey c) (pinpointCfg.SecretKey c)
            (pinpointCfg.Region c));
       EvGetCallerIdentity sess].
Proof.
  intros Hnew.
  destruct (NewPinpoint_inv cfg l w m e Hnew)
    as (c & sess & Hparse & Hid & Hsess & Hsts & -> & -> & Hw).
  split; [done|]. split; [done|]. exists c, sess.
  split; [done|]. split; [done|]. split; [done|]. split; [done|].
  split; [done|]. rewrite Hw. apply calls_made_two.
Qed.

Lemma NewPinpoint_adapter_is_validated_witness :
  ∃ c sess,
    @session_NewSession
       (scripted_ctor (inr sescfg_keys) (inr smscfg_keys)
          (λ c, inr (aws.mkSession c)) None)
       (aws_config (pinpointCfg.AccessKey c) (pinpointCfg.SecretKey c)
          (pinpointCfg.Region c)) world0 = inr sess ∧
    OfPinpoint
      (pinpointMessenger.mk smscfg_keys
         (pinpoint.New (aws.mkSession config_keys)) (mkLogger 0)) =
    OfPinpoint (pinpointMessenger.mk c (pinpoint.New sess) (mkLogger 0)).
Proof.
  destruct (@NewPinpoint_adapter_is_validated
     (scripted_ctor (inr sescfg_keys) (inr smscfg_keys)
        (λ c, inr (aws.mkSession c)) None)
     (bytes_of "{}") (mkLogger 0) world0
     (OfPinpoint
        (pinpointMessenger.mk smscfg_keys
           (pinpoint.New (aws.mkSession config_keys)) (mkLogger 0)))
     None)
    as (_ & _ & c & sess & _ & _ & Hsess & _ & Hm & _).
  - reflexivity.
  - exists c, sess. split; [exact Hsess | exact Hm].
Defined.

(** X21: NewAWSSES hands back an adapter only after the identity check
    has passed: whenever it returns a Messenger that is not nil, the
    error is nil, the session factory answered the configuration built
    from the parsed keys and region with a session, the identity check on
    that very session answered without error, the calls made are the
    creation of the session and that identity check, and the Messenger is
    the e-mail adapter holding the parsed configuration, a client on that
    same session and the logger passed in; its Name is "ses". *)
Theorem NewAWSSES_adapter_is_validated `{C : Collaborators}
    (cfg : list byte) (l : Logger) (w : World) (m : Messenger)
    (e : option error) :
  (NewAWSSES cfg l w).1 = Returned (Some m, e) →
  e = None ∧ Name m = "ses" ∧
  ∃ c sess,
    json_Unmarshal_sesCfg cfg sesCfg.zero = inr c ∧
    session_NewSession
      (aws_config (sesCfg.AccessKey c) (sesCfg.SecretKey c)
         (sesCfg.Region c)) w = inr sess ∧
    sts_GetCallerIdentity sess
      (emit (EvNewSession
         (aws_config (sesCfg.AccessKey c) (sesCfg.SecretKey c)
            (sesCfg.Region c))) w) = None ∧
    m = OfSES (sesMessenger.mk c (ses.New sess) l) ∧
    calls_made w (NewAWSSES cfg l w).2 =
      [EvNewSession
         (aws_config (sesCfg.AccessKey c) (sesCfg.SecretKey c)
            (sesCfg.Region c));
       EvGetCallerIdentity sess].
Proof.
  intros Hnew.
  destruct (NewAWSSES_inv cfg l w m e Hnew)
    as (c & sess & Hparse & Hsess & Hsts & -> & -> & Hw).
  split; [done|]. split; [done|]. exists c, sess.
  split; [done|]. split; [done|]. split; [done|]. split; [done|].
  rewrite Hw. apply calls_made_two.
Qed.

Lemma NewAWSSES_adapter_is_validated_witness :
  ∃ c sess,
    @session_NewSession
       (scripted_ctor (inr sescfg_keys) (inr smscfg_keys)
          (λ c, inr (aws.mkSession c)) None)
       (aws_config (sesCfg.AccessKey c) (sesCfg.SecretKey c)
          (sesCfg.Region c)) world0 = inr sess ∧
    OfSES
      (sesMessenger.mk sescfg_keys
         (ses.New (aws.mkSession config_keys)) (mkLogger 0)) =
    OfSES (sesMessenger.mk c (ses.New sess) (mkLogger 0)).
Proof.
  destruct (@NewAWSSES_adapter_is_validated
     (scripted_ctor (inr sescfg_keys) (inr smscfg_keys)
        (λ c, inr (aws.mkSession c)) None)
     (bytes_of "{}") (mkLogger 0) world0
     (OfSES
        (sesMessenger.mk sescfg_keys
           (ses.New (aws.mkSession config_keys)) (mkLogger 0)))
     None)
    as (_ & _ & c & sess & _ & Hsess & _ & Hm & _).
  - reflexivity.
  - exists c, sess. split; [exact Hsess | exact Hm].
Defined.

(** X22: whenever a constructor returns, it returns either a nil
    Messenger with an error or a Messenger with a nil error, never both
    nil and never both set. *)
Theorem constructors_adapter_xor_error `{C : Collaborators}
    (cfg : list byte) (l : Logger) (w : World) (m : option Messenger)
    (e : option error) :
  (NewPinpoint cfg l w).1 = Returned (m, e) ∨
  (NewAWSSES cfg l w).1 = Returned (m, e) →
  (m = None ∧ is_Some e) ∨ (is_Some m ∧ e = None).
Proof.
  intros [Hnew | Hnew].
  - revert Hnew. unfold NewPinpoint, must_new_session, checkCredentials.
    destruct (json_Unmarshal_pinpointCfg cfg pinpointCfg.zero) as [err|c].
    { intros [= <- <-]. left. by eauto. }
    case_bool_decide as Hid.
    { intros [= <- <-]. left. by eauto. }
    destruct (session_NewSession _ w) as [err|sess]; [discriminate|].
    destruct (sts_GetCallerIdentity sess _) as [err|]; cbn [fst].
    + intros [= <- <-]. left. by eauto.
    + intros [= <- <-]. right. by eauto.
  - revert Hnew. unfold NewAWSSES, must_new_session, checkCredentials.
    destruct (json_Unmarshal_sesCfg cfg sesCfg.zero) as [err|c].
    { intros [= <- <-]. left. by eauto. }
    destruct (session_NewSession _ w) as [err|sess]; [discriminate|].
    destruct (sts_GetCallerIdentity sess _) as [err|]; cbn [fst].
    + intros [= <- <-]. left. by eauto.
    + intros [= <- <-]. right. by eauto.
Qed.

Lemma constructors_adapter_xor_error_witness :
  ((None : option Messenger) = None ∧ is_Some (Some identity_error)) ∨
  (is_Some (None : option Messenger) ∧ Some identity_error = None).
Proof.
  apply (@constructors_adapter_xor_error
     (scripted_ctor (inr sescfg_keys) (inr smscfg_keys)
        (λ c, inr (aws.mkSession c)) (Some identity_error))
     (bytes_of "{}") (mkLogger 0) world0 None (Some identity_error)).
  right. reflexivity.
Defined.

Lemma sms_push_first_event `{C : Collaborators} (p : pinpointMessenger.t)
    (msg : Message.t) (w : World) (phone : string) :
  models.Attribs (Message.Subscriber msg) !! "phone" = Some (anyString phone) →
  ∃ rest,
    calls_made w (pinpointMessenger_Push p msg w).2 =
      EvSendMessages (pinpointMessenger.client p)
        (sms_payload p phone
           (string_of_list_byte (read_slice (mem w) (Message.Body msg))))
      :: rest.
Proof.
  intros Hphone. unfold pinpointMessenger_Push.
  rewrite Hphone. cbn [assert_string negb].
  destruct (pinpoint_SendMessages _ _ _) as [err|out].
  { exists []. by apply calls_made_emit. }
  destruct (pinpointCfg.Log _).
  - destruct (pinpoint.Response out) as [r|].
    + eexists. cbn [snd]. apply calls_made_app.
      match goal with
      | |- trace (log_results ?l ?res ?w0) = _ =>
          destruct (log_results_world l res w0) as (Ht & _)
      end.
      rewrite Ht. cbn. by rewrite <- app_assoc.
    + exists []. by apply calls_made_emit.
  - exists []. by apply calls_made_emit.
Qed.

(** X23: an adapter handed back by NewPinpoint in world [w], pushing a
    message whose phone attribute is a string, sends its request first,
    through the client built on the session that the session factory
    answered in [w] for the configuration built from the parsed keys and
    region and that passed the identity check there, and under the
    application identifier parsed from the blob, which is not empty; the
    request binds the phone number to the channel SMS. *)
Theorem NewPinpoint_then_Push `{C : Collaborators} (cfg : list byte)
    (l : Logger) (w w1 : World) (m : Messenger) (e : option error)
    (msg : Message.t) (phone : string) :
  (NewPinpoint cfg l w).1 = Returned (Some m, e) →
  models.Attribs (Message.Subscriber msg) !! "phone" = Some (anyString phone) →
  ∃ c sess req rest,
    json_Unmarshal_pinpointCfg cfg pinpointCfg.zero = inr c ∧
    pinpointCfg.AppID c ≠ "" ∧
    session_NewSession
      (aws_config (pinpointCfg.AccessKey c) (pinpointCfg.SecretKey c)
         (pinpointCfg.Region c)) w = inr sess ∧
    sts_GetCallerIdentity sess
      (emit (EvNewSession
         (aws_config (pinpointCfg.AccessKey c) (pinpointCfg.SecretKey c)
            (pinpointCfg.Region c))) w) = None ∧
    calls_made w (NewPinpoint cfg l w).2 =
      [EvNewSession
         (aws_config (pinpointCfg.AccessKey c) (pinpointCfg.SecretKey c)
            (pinpointCfg.Region c));
       EvGetCallerIdentity sess] ∧
    calls_made w1 (Push m msg w1).2 =
      EvSendMessages (pinpoint.New sess)
        (pinpoint.mkInput (Some (pinpointCfg.AppID c)) (Some req)) :: rest ∧
    pinpoint.Addresses req !! phone = Some (pinpoint.mkAddress (Some "SMS")).
Proof.
  intros Hnew Hphone.
  destruct (NewPinpoint_inv cfg l w m e Hnew)
    as (c & sess & Hparse & Hid & Hsess & Hsts & _ & -> & Hw).
  cbn [Push].
  destruct (sms_push_first_event
              (pinpointMessenger.mk c (pinpoint.New sess) l) msg w1 phone
              Hphone) as [rest Hcalls].
  exists c, sess. eexists. exists rest.
  split; [exact Hparse|]. split; [exact Hid|]. split; [exact Hsess|].
  split; [exact Hsts|]. split; [rewrite Hw; apply calls_made_two|].
  split; [exact Hcalls|].
  cbn. apply lookup_singleton_eq.
Qed.

Lemma NewPinpoint_then_Push_witness :
  ∃ c sess req rest,
    @session_NewSession
       (scripted_ctor (inr sescfg_keys) (inr smscfg_keys)
          (λ c, inr (aws.mkSession c)) None)
       (aws_config (pinpointCfg.AccessKey c) (pinpointCfg.SecretKey c)
          (pinpointCfg.Region c)) world0 = inr sess ∧
    pinpointCfg.AppID c ≠ "" ∧
    calls_made world0
      (@Push
         (scripted_ctor (inr sescfg_keys) (inr smscfg_keys)
            (λ c, inr (aws.mkSession c)) None)
         (OfPinpoint
            (pinpointMessenger.mk smscfg_keys
               (pinpoint.New (aws.mkSession config_keys)) (mkLogger 0)))
         msg_html world0).2 =
      EvSendMessages (pinpoint.New sess)
        (pinpoint.mkInput (Some (pinpointCfg.AppID c)) (Some req)) :: rest ∧
    pinpoint.Addresses req !! "+15550001111" =
      Some (pinpoint.mkAddress (Some "SMS")).
Proof.
  destruct (@NewPinpoint_then_Push
     (scripted_ctor (inr sescfg_keys) (inr smscfg_keys)
        (λ c, inr (aws.mkSession c)) None)
     (bytes_of "{}") (mkLogger 0) world0 world0
     (OfPinpoint
        (pinpointMessenger.mk smscfg_keys
           (pinpoint.New (aws.mkSession config_keys)) (mkLogger 0)))
     None msg_html "+15550001111")
    as (c & sess & req & rest & _ & Hid & Hsess & _ & _ & Hcalls & Haddr).
  - reflexivity.
  - reflexivity.
  - exists c, sess, req, rest.
    split; [exact Hsess|]. split; [exact Hid|]. split; [exact Hcalls|].
    exact Haddr.
Defined.

(** X24: when the blob parses with a non-empty application identifier,
    the session is created and the identity check passes, NewPinpoint
    returns, with a nil error, the SMS adapter that holds the parsed
    configuration, a client on that session and the logger passed in,
    after the creation of the session and the identity check. *)
Theorem NewPinpoint_success `{C : Collaborators} (cfg : list byte)
    (l : Logger) (w : World) (c : pinpointCfg.t) (sess : aws.Session) :
  let config := aws_config (pinpointCfg.AccessKey c) (pinpointCfg.SecretKey c)
                  (pinpointCfg.Region c) in
  json_Unmarshal_pinpointCfg cfg pinpointCfg.zero = inr c →
  pinpointCfg.AppID c ≠ "" →
  session_NewSession config w = inr sess →
  sts_GetCallerIdentity sess (emit (EvNewSession config) w) = None →
  (NewPinpoint cfg l w).1 =
    Returned
      (Some (OfPinpoint (pinpointMessenger.mk c (pinpoint.New sess) l)), None) ∧
  calls_made w (NewPinpoint cfg l w).2 =
    [EvNewSession config; EvGetCallerIdentity sess].
Proof.
  intros config Hparse Hid Hsess Hsts.
  unfold NewPinpoint, must_new_session, checkCredentials.
  rewrite Hparse. rewrite bool_decide_eq_false_2 by done.
  fold config. rewrite Hsess, Hsts. cbn [fst snd].
  split; [done | apply calls_made_two].
Qed.

Lemma NewPinpoint_success_witness :
  (@NewPinpoint
     (scripted_ctor (inr sescfg_keys) (inr smscfg_keys)
        (λ c, inr (aws.mkSession c)) None)
     (bytes_of "{}") (mkLogger 0) world0).1
  = Returned
      (Some (OfPinpoint
         (pinpointMessenger.mk smscfg_keys
            (pinpoint.New (aws.mkSession config_keys)) (mkLogger 0))), None).
Proof.
  apply (@NewPinpoint_success
     (scripted_ctor (inr sescfg_keys) (inr smscfg_keys)
        (λ c, inr (aws.mkSession c)) None)
     (bytes_of "{}") (mkLogger 0) world0 smscfg_keys
     (aws.mkSession config_keys)).
  - reflexivity.
  - discriminate.
  - reflexivity.
  - reflexivity.
Defined.

(** X25: when the blob parses, the session is created and the identity
    check passes, NewAWSSES returns, with a nil error, the e-mail adapter
    that holds the parsed configuration, a client on that session and the
    logger passed in, after the creation of the session and the identity
    check; an empty configuration is enough. *)
Theorem NewAWSSES_success `{C : Collaborators} (cfg : list byte)
    (l : Logger) (w : World) (c : sesCfg.t) (sess : aws.Session) :
  let config := aws_config (sesCfg.AccessKey c) (sesCfg.SecretKey c)
                  (sesCfg.Region c) in
  json_Unmarshal_sesCfg cfg sesCfg.zero = inr c →
  session_NewSession config w = inr sess →
  sts_GetCallerIdentity sess (emit (EvNewSession config) w) = None →
  (NewAWSSES cfg l w).1 =
    Returned (Some (OfSES (sesMessenger.mk c (ses.New sess) l)), None) ∧
  calls_made w (NewAWSSES cfg l w).2 =
    [EvNewSession config; EvGetCallerIdentity sess].
Proof.
  intros config Hparse Hsess Hsts.
  unfold NewAWSSES, must_new_session, checkCredentials.
  rewrite Hparse. fold config. rewrite Hsess, Hsts. cbn [fst snd].
  split; [done | apply calls_made_two].
Qed.

Lemma NewAWSSES_success_witness :
  (@NewAWSSES
     (scripted_ctor (inr sesCfg.zero) (inr smscfg_keys)
        (λ c, inr (aws.mkSession c)) None)
     (bytes_of "{}") (mkLogger 0) world0).1
  = Returned
      (Some (OfSES
         (sesMessenger.mk sesCfg.zero
            (ses.New (aws.mkSession (aws.mkConfig (Some 3) None None)))
            (mkLogger 0))), None).
Proof.
  apply (@NewAWSSES_success
     (scripted_ctor (inr sesCfg.zero) (inr smscfg_keys)
        (λ c, inr (aws.mkSession c)) None)
     (bytes_of "{}") (mkLogger 0) world0 sesCfg.zero
     (aws.mkSession (aws.mkConfig (Some 3) None None))).
  - reflexivity.
  - reflexivity.
  - reflexivity.
Defined.
